(** * Battery Management System: the monitor task

    A shallow embedding of the monitor task of the battery management
    firmware (power-management-monitor.c): the State of Charge model
    [computeSoC], the accessors [setBatterySoC] and [resetBatterySoC], the
    calibration sequence and the allocation pass of [prvMonitorTask].

    Fixed-width C integers are carried as [Z] with their wrap-around written
    out.  Arrays are lists; a read outside an array returns what the
    surrounding memory holds, which is an input of the model.  The messages
    sent to the communications and file tasks do not change the state of the
    monitor and are left out, except for the progress messages of the
    calibration. *)

From Stdlib Require Import ZArith Lia Bool List Sorted.
From stdpp Require Import base option list.
Import ListNotations.

Local Open Scope Z_scope.

(** ** Machine integers *)

(** Conversion to [uint8_t], [uint16_t], [uint32_t]. *)
Definition u8 (x : Z) : Z := x mod 2 ^ 8.
Definition u16 (x : Z) : Z := x mod 2 ^ 16.
Definition u32 (x : Z) : Z := x mod 2 ^ 32.

(** Conversion to [int16_t] and [int32_t] (two's complement). *)
Definition s16 (x : Z) : Z := (x + 2 ^ 15) mod 2 ^ 16 - 2 ^ 15.
Definition s32 (x : Z) : Z := (x + 2 ^ 31) mod 2 ^ 32 - 2 ^ 31.

(** Unsigned 32-bit division; the divisor zero is the hardware fault. *)
Definition udiv32 (a b : Z) : option Z :=
  if b =? 0 then None else Some (a / b).

(** ** Enumerations of the object dictionary *)

(** Modelled from the spec: power-management-objdic.h, which declares the
    battery type and the fill, operational, health and charging states, is
    not among the sources; the constructors are the names used by the monitor
    and listed in the data model. *)

Inductive battery_Type := wetT | gelT | agmT.
Inductive battery_Fl_States := normalF | lowF | criticalF | faultyF.
Inductive battery_Op_States := isolatedO | loadedO | chargingO.
Inductive battery_Hl_States := goodH | faultyH | missingH | weakH.
Inductive battery_Ch_States := bulkC | absorptionC | restC | floatC.

Global Instance battery_Type_eq_dec : EqDecision battery_Type.
Proof. solve_decision. Defined.
Global Instance battery_Fl_States_eq_dec : EqDecision battery_Fl_States.
Proof. solve_decision. Defined.
Global Instance battery_Op_States_eq_dec : EqDecision battery_Op_States.
Proof. solve_decision. Defined.
Global Instance battery_Hl_States_eq_dec : EqDecision battery_Hl_States.
Proof. solve_decision. Defined.
Global Instance battery_Ch_States_eq_dec : EqDecision battery_Ch_States.
Proof. solve_decision. Defined.

(** ** State of Charge from the open circuit voltage *)

(** [tDiff]: difference between 48.9C and ambient, times 64 ([uint32_t]). *)
Definition tDiffOf (temperature : Z) : Z :=
  Z.shiftr (u32 (12518 - u32 temperature)) 2.

(** [vFactor]: correction factor applied to the voltage, times 65536. *)
Definition vFactorOf (temperature : Z) : Z :=
  let tDiff := tDiffOf temperature in
  u32 (65536 - Z.shiftr (u32 (u32 (42 * tDiff) * tDiff)) 20).

(** The part of [computeSoC] after [ocv] is known; [int32_t] arithmetic. *)
Definition socOfOcv (ocv : Z) (type : battery_Type) : Z :=
  let v100 := if bool_decide (type = wetT) then 3242 else 3280 in
  let soc := s32 (100 * s32 (65536 - s32 (320 * s32 (v100 - ocv)))) in
  let soc :=
    if bool_decide (type = gelT) || bool_decide (type = agmT) then
      let v50 := 3178 in
      if ocv <? v50 then
        let v25 := 3075 in
        if ocv >? v25 then s32 (soc + s32 (100 * 160 * s32 (v50 - ocv)))
        else s32 (soc + s32 (100 * 160 * s32 (v50 - v25)))
      else soc
    else soc in
  let soc := Z.shiftr soc 8 in
  let soc := if soc >? 100 * 256 then 100 * 256 else soc in
  let soc := if soc <? 0 then 0 else soc in
  s16 soc.

(** [computeSoC]: the arguments are converted to [uint32_t] at the call. *)
Definition computeSoC (voltage temperature : Z) (type : battery_Type)
  : option Z :=
  let vFactor := vFactorOf temperature in
  q ← udiv32 (u32 (u32 voltage * 65536)) vFactor;
  let ocv := s32 q in
  Some (socOfOcv ocv type).

(** The value used by the callers of [computeSoC], which do not test for a
    fault. *)
Definition socFromOCV (voltage temperature : Z) (type : battery_Type) : Z :=
  default 0 (computeSoC voltage temperature type).

(** ** The battery record and the collaborators *)

(** [struct batteryStates]; current, voltage, SoC and charge are times 256. *)
Record batteryStates := mkBattery {
  currentSteady : Z;                 (* uint16_t *)
  fillState : battery_Fl_States;
  opState : battery_Op_States;
  healthState : battery_Hl_States;
  lastCurrent : Z;                   (* int16_t *)
  lastVoltage : Z;                   (* int16_t *)
  SoC : Z;                           (* uint16_t *)
  charge : Z;                        (* int32_t *)
  isolationTime : Z                  (* uint32_t *)
}.

Definition withCurrentSteady (x : Z) (b : batteryStates) : batteryStates :=
  mkBattery x (fillState b) (opState b) (healthState b) (lastCurrent b)
    (lastVoltage b) (SoC b) (charge b) (isolationTime b).
Definition withFillState (x : battery_Fl_States) (b : batteryStates) :=
  mkBattery (currentSteady b) x (opState b) (healthState b) (lastCurrent b)
    (lastVoltage b) (SoC b) (charge b) (isolationTime b).
Definition withOpState (x : battery_Op_States) (b : batteryStates) :=
  mkBattery (currentSteady b) (fillState b) x (healthState b) (lastCurrent b)
    (lastVoltage b) (SoC b) (charge b) (isolationTime b).
Definition withHealthState (x : battery_Hl_States) (b : batteryStates) :=
  mkBattery (currentSteady b) (fillState b) (opState b) x (lastCurrent b)
    (lastVoltage b) (SoC b) (charge b) (isolationTime b).
Definition withSoC (x : Z) (b : batteryStates) : batteryStates :=
  mkBattery (currentSteady b) (fillState b) (opState b) (healthState b)
    (lastCurrent b) (lastVoltage b) x (charge b) (isolationTime b).
Definition withCharge (x : Z) (b : batteryStates) : batteryStates :=
  mkBattery (currentSteady b) (fillState b) (opState b) (healthState b)
    (lastCurrent b) (lastVoltage b) (SoC b) x (isolationTime b).
Definition withIsolationTime (x : Z) (b : batteryStates) : batteryStates :=
  mkBattery (currentSteady b) (fillState b) (opState b) (healthState b)
    (lastCurrent b) (lastVoltage b) (SoC b) (charge b) x.

(** Modelled from the spec: the configuration group of
    power-management-objdic.h is not among the sources; these are the fields
    of [configData.config] read by the monitor, with the types given to them
    by their accessors. *)
Record Config := mkConfig {
  batteryCapacity : Z -> Z;          (* int16_t, ampere hours *)
  batteryType : Z -> battery_Type;
  lowVoltage : Z;                    (* int16_t *)
  criticalVoltage : Z;
  lowSoC : Z;
  criticalSoC : Z;
  floatBulkSoC : Z;
  monitorStrategy : Z;               (* uint8_t *)
  autoTrack : bool;
  monitorDelay : Z                   (* portTickType *)
}.

(** What the measurement task reports during one pass of the monitor, and
    what the memory next to the [battery] array holds, read as a battery
    record, for the indexes outside the array. *)
Record Readings := mkReadings {
  getBatteryVoltage : Z -> Z;        (* int16_t *)
  getBatteryCurrent : Z -> Z;        (* int16_t *)
  getBatteryAccumulatedCharge : Z -> Z;  (* int16_t *)
  getPanelVoltage : Z -> Z;          (* int16_t *)
  getTemperature : Z;                (* int32_t *)
  outside : Z -> batteryStates
}.

(** Monitor strategy fields. *)
Definition SEPARATE_LOAD : Z := Z.shiftl 1 0.
Definition PRESERVE_ISOLATION : Z := Z.shiftl 1 1.
Definition hasStrategy (cfg : Config) (field : Z) : bool :=
  negb (Z.land (monitorStrategy cfg) field =? 0).

(** Modelled from the spec: the switch destinations of [setSwitch], defined
    in a header that is not among the sources; the calibration connects
    load 1 as destination 0 and load 2 as destination 1. *)
Definition LOAD_1 : Z := 0.
Definition LOAD_2 : Z := 1.
Definition PANEL : Z := 2.

(** [battery[i]] for any C index: inside the array the element, outside it
    the neighbouring memory. *)
Definition batteryAt (env : Readings) (bats : list batteryStates) (i : Z)
  : batteryStates :=
  if bool_decide (0 <= i) then default (outside env i) (bats !! Z.to_nat i)
  else outside env i.

(** ** Accessors of the monitor *)

(** [setBatterySoC] on the record of battery [i], whose capacity is given. *)
Definition setBatterySoC (capacity : Z) (soc : Z) (b : batteryStates)
  : batteryStates :=
  let soc := s16 soc in
  let b' := if SoC b >? 25600 then withSoC 25600 b else withSoC (u16 soc) b in
  withCharge (s32 (s32 (soc * s16 capacity) * 36)) b'.

(** [resetBatterySoC] *)
Definition resetBatterySoC (capacity : Z) (b : batteryStates) : batteryStates :=
  let b' := if SoC b <? 25600 then withFillState faultyF b else b in
  setBatterySoC capacity 25600 b'.

(** [setBatteryMissing] *)
Definition setBatteryMissing (missing : bool) (b : batteryStates)
  : batteryStates :=
  if missing then withHealthState missingH b else withHealthState goodH b.

(** [getBatterySoC] returns the SoC as [int16_t]. *)
Definition getBatterySoC (b : batteryStates) : Z := s16 (SoC b).

Definition isMissing (b : batteryStates) : bool :=
  bool_decide (healthState b = missingH).
Definition isWeak (b : batteryStates) : bool :=
  bool_decide (healthState b = weakH).

(** [setBatterySoC(i, computeSoC(getBatteryVoltage(i), getTemperature(),
    getBatteryType(i)))] *)
Definition resetFromOCV (cfg : Config) (env : Readings) (i : nat)
  (b : batteryStates) : batteryStates :=
  let i := Z.of_nat i in
  setBatterySoC (batteryCapacity cfg i)
    (socFromOCV (getBatteryVoltage env i) (getTemperature env)
       (batteryType cfg i)) b.

(** ** The monitor task *)

(** The state owned by the monitor task, with the state of the collaborators
    it drives: the charging phases kept by the charger task and the calls
    made to the switch driver (latest first). *)
Record Monitor := mkMonitor {
  battery : list batteryStates;
  batteryUnderCharge : Z;            (* uint8_t *)
  batteryUnderLoad : Z;              (* uint8_t *)
  chargerOff : bool;
  calibrate : bool;
  currentOffsets : list Z;
  decisionStatus : Z;                (* uint16_t *)
  chargingPhase : Z -> battery_Ch_States;
  switchCalls : list (Z * Z);
  panelSwitchSetting : Z
}.

(** [setBatteryChargingPhase(i, phase)] *)
Definition setBatteryChargingPhase (i : Z) (phase : battery_Ch_States)
  (phases : Z -> battery_Ch_States) : Z -> battery_Ch_States :=
  fun j => if bool_decide (j = i) then phase else phases j.

Section MonitorTask.

(** The constants of the board definitions, whose header is not among the
    sources, are parameters. *)
Variable NUM_BATS : nat.
Variable NUM_LOADS : nat.
Variable NUM_PANELS : nat.
Variable WEAK_VOLTAGE : Z.
Variable TEMPERATURE_LIMIT : Z.

Variable cfg : Config.
Variable env : Readings.

(** *** Compute the battery state *)

(** Remove loads and charger from the missing batteries. *)
Definition removeMissingStep (s : list batteryStates * Z * Z) (i : nat)
  : list batteryStates * Z * Z :=
  let '(bats, underLoad, underCharge) := s in
  match bats !! i with
  | Some b =>
      if isMissing b then
        (<[i := setBatterySoC (batteryCapacity cfg (Z.of_nat i)) 0 b]> bats,
         (if underLoad =? Z.of_nat i + 1 then 0 else underLoad),
         (if underCharge =? Z.of_nat i + 1 then 0 else underCharge))
      else s
  | None => s
  end.

Definition removeMissing (bats : list batteryStates) (underLoad underCharge : Z)
  : list batteryStates * Z * Z :=
  foldl removeMissingStep (bats, underLoad, underCharge) (seq 0 NUM_BATS).

(** The number of batteries present ([uint8_t numBats]). *)
Definition countPresent (bats : list batteryStates) : Z :=
  foldl (fun numBats i =>
           if isMissing (batteryAt env bats (Z.of_nat i))
           then u8 (numBats - 1) else numBats)
        (u8 (Z.of_nat NUM_BATS)) (seq 0 NUM_BATS).

(** Add the accumulated charge, limit it and derive the SoC. *)
Definition integrateCharge (capacity accumulatedCharge : Z) (b : batteryStates)
  : batteryStates :=
  let capacity := s16 capacity in
  let charge := s32 (charge b + s16 accumulatedCharge) in
  let chargeMax := u32 (s32 (s32 (capacity * 3600) * 256)) in
  let charge := if charge <? 0 then 0 else charge in
  let charge := if u32 charge >? chargeMax then s32 chargeMax else charge in
  withSoC (u16 (charge ÷ s32 (capacity * 36))) (withCharge charge b).

(** The fill state indication. *)
Definition fillStateOf (batteryAbsVoltage soc : Z) : battery_Fl_States :=
  if (batteryAbsVoltage <? lowVoltage cfg) || (soc <? lowSoC cfg) then lowF
  else if (batteryAbsVoltage <? criticalVoltage cfg)
          || (soc <? criticalSoC cfg) then criticalF
  else normalF.

Definition collectFillState (batteryAbsVoltage : Z) (b : batteryStates)
  : batteryStates :=
  withFillState (fillStateOf batteryAbsVoltage (SoC b)) b.

(** A battery below the dropout voltage is labelled weak. *)
Definition labelWeak (batteryAbsVoltage : Z) (b : batteryStates)
  : batteryStates :=
  if negb (isMissing b) && (batteryAbsVoltage <? WEAK_VOLTAGE) then
    withSoC 0 (withFillState criticalF (withHealthState weakH b))
  else b.

(** Good health is restored in the rest phase. *)
Definition restoreHealth (phase : battery_Ch_States) (b : batteryStates)
  : batteryStates :=
  if negb (isMissing b) && bool_decide (phase = restC) then
    withHealthState goodH b
  else b.

(** The body of the update loop for battery [i]. *)
Definition updateBattery (phases : Z -> battery_Ch_States) (i : nat)
  (b : batteryStates) : batteryStates :=
  if negb (isMissing b) then
    let iz := Z.of_nat i in
    let b := integrateCharge (batteryCapacity cfg iz)
               (getBatteryAccumulatedCharge env iz) b in
    let batteryAbsVoltage := u16 (Z.abs (getBatteryVoltage env iz)) in
    let b := collectFillState batteryAbsVoltage b in
    let b := labelWeak batteryAbsVoltage b in
    restoreHealth (phases iz) b
  else b.

(** A loop [for (i=0; i<NUM_BATS; i++)] whose body rewrites [battery[i]]. *)
Definition forEachBattery (body : nat -> batteryStates -> batteryStates)
  (bats : list batteryStates) : list batteryStates :=
  foldl (fun bats i => alter (body i) i bats) bats (seq 0 NUM_BATS).

Definition updateBatteries (phases : Z -> battery_Ch_States)
  (bats : list batteryStates) : list batteryStates :=
  forEachBattery (updateBattery phases) bats.

(** *** Ranking *)

(** One pass of the bubble sort over [batteryFillStateSort[0..m]]: the
    neighbours at [k], [k+1] are exchanged when [swap] says so. *)
Definition bubbleStep (swap : Z -> Z -> bool) (l : list Z) (k : nat) : list Z :=
  match l !! k, l !! S k with
  | Some a, Some b => if swap a b then <[S k := a]> (<[k := b]> l) else l
  | _, _ => l
  end.

Definition bubblePass (swap : Z -> Z -> bool) (l : list Z) (m : nat) : list Z :=
  foldl (bubbleStep swap) l (seq 0 m).

Definition bubbleSort (swap : Z -> Z -> bool) (l : list Z) : list Z :=
  foldl (fun l i => bubblePass swap l (NUM_BATS - i - 1)) l
        (seq 0 (NUM_BATS - 1)).

(** [batteryFillStateSort]: the battery numbers 1..NUM_BATS, highest SoC
    first, then the missing batteries moved to the far end. *)
Definition rankBatteries (bats : list batteryStates) : list Z :=
  let initial := map (fun i => Z.of_nat i + 1) (seq 0 NUM_BATS) in
  let bySoC :=
    bubbleSort (fun a b => SoC (batteryAt env bats (a - 1))
                           <? SoC (batteryAt env bats (b - 1))) initial in
  bubbleSort (fun a _ => isMissing (batteryAt env bats (a - 1))) bySoC.

(** [batteryFillStateSort[i]]; outside the array the value is not used. *)
Definition sortAt (sort : list Z) (i : Z) : Z :=
  if bool_decide (0 <= i) then default 0 (sort !! Z.to_nat i) else 0.

(** The battery numbers visited by a loop [for (i=0; i<numBats; i++)] through
    [batteryFillStateSort[i]] and through
    [batteryFillStateSort[numBats-i-1]]. *)
Definition fromHighest (sort : list Z) (numBats : Z) : list Z :=
  map (fun i => sortAt sort (Z.of_nat i)) (seq 0 (Z.to_nat numBats)).
Definition fromLowest (sort : list Z) (numBats : Z) : list Z :=
  map (fun i => sortAt sort (numBats - Z.of_nat i - 1))
      (seq 0 (Z.to_nat numBats)).

(** The battery with the longest isolation time. *)
Definition longestIsolated (bats : list batteryStates) (numBats : Z) : Z :=
  fst (foldl (fun '(longestBattery, longestTime) i =>
                let b := batteryAt env bats (Z.of_nat i) in
                if negb (isMissing b) && (isolationTime b >? longestTime)
                then (Z.of_nat i + 1, isolationTime b)
                else (longestBattery, longestTime))
             (0, 0) (seq 0 (Z.to_nat numBats))).

(** *** Battery management decisions *)

(** A loop over candidate batteries that allocates the first one accepted,
    records the reason in [decisionStatus] and breaks.  The pair is the
    allocated battery and the decision status. *)
Definition pick (accept : Z -> bool) (candidates : list Z) (reason : Z)
  (s : Z * Z) : Z * Z :=
  match find accept candidates with
  | Some index => (index, Z.lor (snd s) reason)
  | None => s
  end.

Section Decisions.

Variable bats : list batteryStates.
Variable sort : list Z.
Variable numBats : Z.
Variable longestBattery : Z.

(** Preliminary: a battery in float phase whose SoC has dropped is put back
    to bulk phase.  The loop indexes with the battery number itself. *)
Definition restartBulk (phases : Z -> battery_Ch_States)
  : Z -> battery_Ch_States :=
  foldl (fun phases index =>
           if negb (isMissing (batteryAt env bats index))
              && bool_decide (phases index = floatC)
              && (getBatterySoC (batteryAt env bats index) <? floatBulkSoC cfg)
           then setBatteryChargingPhase index bulkC phases
           else phases)
        phases (fromHighest sort numBats).

(** Preliminary: the charger is released from a battery in float or rest. *)
Definition releaseFinished (phases : Z -> battery_Ch_States) (underCharge : Z)
  : Z :=
  if underCharge >? 0 then
    let floatPhase := bool_decide (phases (underCharge - 1) = floatC) in
    let restPhase := bool_decide (phases (underCharge - 1) = restC) in
    if floatPhase || restPhase then 0 else underCharge
  else underCharge.

(** Preliminary: the scan that leaves [chargerOff] false, when it finds a
    battery below the panel voltage. *)
Definition panelAboveSome : bool :=
  existsb (fun index =>
             negb (isMissing (batteryAt env bats index))
             && (getBatteryVoltage env index <? getPanelVoltage env 0 + 128))
          (fromHighest sort numBats).

(** Preliminary: the scan for a battery that is not in float phase. *)
Definition allInFloat (phases : Z -> battery_Ch_States) : bool :=
  negb (existsb (fun index =>
                   negb (isMissing (batteryAt env bats index))
                   && negb (bool_decide (phases index = floatC)))
                (fromHighest sort numBats)).

Variable phases : Z -> battery_Ch_States.

Definition inFloat (index : Z) : bool :=
  bool_decide (phases (index - 1) = floatC).
Definition inRest (index : Z) : bool :=
  bool_decide (phases (index - 1) = restC).
Definition kept (index : Z) : bool :=
  (index =? longestBattery) && hasStrategy cfg PRESERVE_ISOLATION.
Definition fillOf (index : Z) : battery_Fl_States :=
  fillState (batteryAt env bats (index - 1)).
Definition weakAt (index : Z) : bool :=
  isWeak (batteryAt env bats (index - 1)).
Definition socAt (index : Z) : Z :=
  SoC (batteryAt env bats (index - 1)).

(** One battery: the loads and the charger go to it.  The pair is
    ([batteryUnderCharge], [batteryUnderLoad]) with the decision status. *)
Definition oneBattery (decisionStatus : Z) : Z * Z * Z :=
  let index := sortAt sort 0 in
  let decisionStatus := Z.lor decisionStatus 0x1000 in
  if isWeak (batteryAt env bats index)
  then (index, 0, Z.lor decisionStatus 0x40)
  else (index, index, decisionStatus).

(** Charger allocation, entered when the charger is not off. *)
Definition allocateCharger (isolatable : bool) (lowestBattery : Z)
  (underCharge decisionStatus : Z) : Z * Z :=
  let underCharge :=
    if bool_decide (fillOf lowestBattery <> normalF) then 0 else underCharge in
  let s :=
    if bool_decide (fillOf lowestBattery = criticalF)
    then (lowestBattery, Z.lor decisionStatus 0x08)
    else (underCharge, decisionStatus) in
  let s := pick weakAt (fromLowest sort numBats) 0x04 s in
  let s :=
    if (fst s =? 0) && isolatable then
      pick (fun index =>
              negb (inFloat index) && negb (inRest index) && negb (kept index))
           (fromLowest sort numBats) 0x01 s
    else s in
  let s :=
    if fst s =? 0 then
      pick (fun index => negb (inFloat index) && negb (inRest index))
           (fromLowest sort numBats) 0x02 s
    else s in
  if negb (fst s =? 0) && bool_decide (fillOf (fst s) = normalF) then
    pick (fun index =>
            negb (inFloat index) && negb (inRest index)
            && (socAt (fst s) >? socAt index + 5 * 256))
         (fromLowest sort numBats) 0x03 s
  else s.

(** Load allocation; [underCharge] is the final charger allocation. *)
Definition separated (underCharge index : Z) : bool :=
  (index =? underCharge) && hasStrategy cfg SEPARATE_LOAD.

Definition releaseLoad (underCharge underLoad : Z) : Z :=
  let underLoad :=
    if (underLoad =? underCharge) && hasStrategy cfg SEPARATE_LOAD
    then 0 else underLoad in
  let underLoad :=
    if negb (underLoad =? 0) && weakAt underLoad then 0 else underLoad in
  if negb (underLoad =? 0) && bool_decide (fillOf underLoad <> normalF)
  then 0 else underLoad.

Definition seekLoad (isolatable : bool) (underCharge : Z) (s : Z * Z) : Z * Z :=
  let s :=
    if (fst s =? 0) && isolatable then
      pick (fun index =>
              negb (weakAt index) && negb (kept index)
              && negb (separated underCharge index))
           (fromHighest sort numBats) 0x10 s
    else s in
  let s :=
    if fst s =? 0 then
      pick (fun index =>
              negb (weakAt index) && negb (separated underCharge index))
           (fromHighest sort numBats) 0x20 s
    else s in
  if fst s =? 0 then
    pick (fun index => negb (weakAt index)) (fromHighest sort numBats) 0x40 s
  else s.

(** The second look when the load ended on a low or critical battery; the
    comparison reads [battery[batteryUnderCharge-1]]. *)
Definition reviewLoad (underCharge : Z) (s : Z * Z) : Z * Z :=
  if negb (fst s =? 0) && bool_decide (fillOf (fst s) <> normalF) then
    pick (fun index =>
            negb (weakAt index) && negb (separated underCharge index)
            && (socAt underCharge >? socAt index + 5 * 256))
         (fromHighest sort numBats) 0x30 s
  else s.

(** The loads follow the charger when they ended on a critical battery. *)
Definition followCharger (underCharge : Z) (s : Z * Z) : Z * Z :=
  if negb (underCharge =? 0) && negb (fst s =? 0)
     && negb (weakAt underCharge) && bool_decide (fillOf (fst s) = criticalF)
  then (underCharge, Z.lor (snd s) 0x80)
  else s.

Definition allocateLoad (isolatable : bool) (underCharge underLoad : Z)
  (decisionStatus : Z) : Z * Z :=
  let s := (releaseLoad underCharge underLoad, decisionStatus) in
  let s := seekLoad isolatable underCharge s in
  let s := reviewLoad underCharge s in
  followCharger underCharge s.

(** More than one battery. *)
Definition manyBatteries (off : bool) (underCharge underLoad : Z)
  (decisionStatus : Z) : Z * Z * Z :=
  let decisionStatus := Z.lor decisionStatus 0x2000 in
  let isolatable := numBats >? 2 in
  let lowestBattery := sortAt sort (numBats - 1) in
  let c :=
    if negb off
    then allocateCharger isolatable lowestBattery underCharge decisionStatus
    else (underCharge, decisionStatus) in
  let l := allocateLoad isolatable (fst c) underLoad (snd c) in
  (fst c, fst l, snd l).

End Decisions.

(** *** Global decisions *)

(** The operational state of battery [i] for the new allocation. *)
Definition operationalState (underLoad underCharge : Z) (i : nat)
  (b : batteryStates) : batteryStates :=
  let lastOpState := opState b in
  if negb (isMissing b) then
    let iz := Z.of_nat i in
    let b := withOpState isolatedO b in
    let b :=
      if (underLoad >? 0) && (underLoad =? iz + 1)
      then withOpState loadedO b else b in
    let b :=
      if (underCharge >? 0) && (iz =? underCharge - 1)
      then withOpState chargingO b else b in
    let b :=
      if bool_decide (lastOpState = isolatedO)
         && negb (bool_decide (opState b = isolatedO))
         && (isolationTime b >? u32 (4 * 3600 * 1024) / monitorDelay cfg)
      then withIsolationTime 0 (resetFromOCV cfg env i b) else b in
    if negb (bool_decide (opState b = isolatedO)) || (underLoad =? underCharge)
    then withIsolationTime 10 b else b
  else b.

(** The calls to the switch driver when auto tracking is on: the list of
    [setSwitch(battery, destination)] in program order. *)
Definition setSwitches (bats : list batteryStates) (underLoad underCharge : Z)
  : list (Z * Z) :=
  [(underLoad, LOAD_2)]
  ++ (if bool_decide
           (fillState (batteryAt env bats (underLoad - 1)) = criticalF)
      then [(0, LOAD_1)] else [(underLoad, LOAD_1)])
  ++ (if getTemperature env <? TEMPERATURE_LIMIT * 256
      then [(underCharge, PANEL)] else []).

(** *** Reset of the SoC after idle time *)

Definition idleReset (i : nat) (b : batteryStates) : batteryStates :=
  let monitorHour := u32 (3600 * 1000) / monitorDelay cfg in
  if negb (isMissing b) then
    let b :=
      if Z.abs (getBatteryCurrent env (Z.of_nat i)) <? 30
      then withCurrentSteady (u16 (currentSteady b + 1)) b
      else withCurrentSteady 0 b in
    let b :=
      if currentSteady b >? monitorHour
      then withCurrentSteady 0 (resetFromOCV cfg env i b) else b in
    let b := withIsolationTime (u32 (isolationTime b + 1)) b in
    if isolationTime b >? u32 (8 * monitorHour)
    then withIsolationTime 0 (resetFromOCV cfg env i b) else b
  else b.

(** *** One pass of the main loop after the calibration and the report *)

(** The allocation decided in a pass: [batteryUnderCharge],
    [batteryUnderLoad], [chargerOff], [decisionStatus] and the charging
    phases as left by the preliminary decisions. *)
Record Decision := mkDecision {
  dUnderCharge : Z;
  dUnderLoad : Z;
  dChargerOff : bool;
  dStatus : Z;
  dPhases : Z -> battery_Ch_States
}.

(** The preliminary decisions: the charger allocation, [chargerOff] and the
    decision status before the batteries are counted. *)
Definition preliminary (bats : list batteryStates) (sort : list Z) (numBats : Z)
  (phases : Z -> battery_Ch_States) (underCharge : Z) : Z * bool * Z :=
  let underCharge := releaseFinished phases underCharge in
  let found := panelAboveSome bats sort numBats in
  let decisionStatus := if found then Z.lor 0 0x100 else 0 in
  let off := negb found in
  let underCharge := if off then 0 else underCharge in
  if allInFloat bats sort numBats phases
  then (0, true, Z.lor decisionStatus 0x200)
  else (underCharge, off, decisionStatus).

Definition decisions (bats : list batteryStates) (numBats : Z)
  (phases : Z -> battery_Ch_States) (underLoad underCharge : Z) : Decision :=
  let sort := rankBatteries bats in
  let longestBattery := longestIsolated bats numBats in
  let phases := restartBulk bats sort numBats phases in
  let p := preliminary bats sort numBats phases underCharge in
  let underCharge := fst (fst p) in
  let off := snd (fst p) in
  let decisionStatus := snd p in
  let a :=
    if numBats =? 1 then oneBattery bats sort decisionStatus
    else if numBats >? 1 then
      manyBatteries bats sort numBats longestBattery phases off
        underCharge underLoad decisionStatus
    else (underCharge, underLoad, decisionStatus) in
  mkDecision (fst (fst a)) (snd (fst a)) off (snd a) phases.

(** Removal of the allocations of missing batteries, update of the battery
    states, decisions, operational states, switches and idle reset. *)
Definition manage (st : Monitor) : Monitor :=
  let r := removeMissing (battery st) (batteryUnderLoad st)
             (batteryUnderCharge st) in
  let bats := fst (fst r) in
  let numBats := countPresent bats in
  let bats := updateBatteries (chargingPhase st) bats in
  let d := decisions bats numBats (chargingPhase st) (snd (fst r)) (snd r) in
  let bats :=
    forEachBattery (operationalState (dUnderLoad d) (dUnderCharge d)) bats in
  let calls :=
    if autoTrack cfg
    then rev (setSwitches bats (dUnderLoad d) (dUnderCharge d)) else [] in
  let bats := forEachBattery idleReset bats in
  mkMonitor bats (dUnderCharge d) (dUnderLoad d) (dChargerOff d)
    (calibrate st) (currentOffsets st) (dStatus d) (dPhases d)
    (calls ++ switchCalls st)
    (if autoTrack cfg then dUnderCharge d else panelSwitchSetting st).

End MonitorTask.

(** ** Calibration *)

(** What is read during a calibration: the indicators returned by the call
    made for battery [i] during test [test], the current of interface [i]
    at the end of test [test], and the switch control bits at the start. *)
Record CalibrationReadings := mkCalibrationReadings {
  calIndicators : nat -> nat -> Z;
  calCurrent : nat -> nat -> Z;      (* int16_t *)
  calSwitchControlBits : Z           (* uint8_t *)
}.

(** The outcome of a calibration: the monitor state, the tests run (the
    progress messages), the corrected results and the quiescent current. *)
Record CalibrationRun := mkCalibrationRun {
  runState : Monitor;
  runProgress : list Z;
  runResults : list (list Z);
  runQuiescent : Z;
  runRestored : Z
}.

Definition CALIBRATION_THRESHOLD : Z := -50.
Definition OFFSET_START_VALUE : Z := 100.

Section Calibration.

Variable NUM_BATS : nat.
Variable NUM_LOADS : nat.
Variable NUM_PANELS : nat.

(** Modelled from the spec: the headers that define [NUM_IFS] are not part of
    the sources; the interface record has one entry for each battery, load
    and panel. *)
Definition NUM_IFS : nat := NUM_BATS + NUM_LOADS + NUM_PANELS.

Definition NUM_TESTS : nat := NUM_IFS + 1.

Variable cfg : Config.
Variable env : Readings.
Variable cal : CalibrationReadings.

(** The switch calls of test [test], in program order. *)
Definition testSwitches (test : nat) : list (Z * Z) :=
  map (fun i => (0, Z.of_nat i)) (seq 0 (NUM_LOADS + NUM_PANELS))
  ++ (if Z.of_nat test <? Z.of_nat NUM_BATS
      then [(Z.of_nat test + 1, 1)]
      else if Z.of_nat test <? Z.of_nat NUM_IFS + 1 - 1
      then [(Z.of_nat test - Z.of_nat NUM_BATS + 1, 0)]
      else []).

(** The check of the indicators after the settling delay of a test. *)
Definition markMissing (test : nat) (bats : list batteryStates)
  : list batteryStates :=
  forEachBattery NUM_BATS
    (fun i b =>
       if Z.land (Z.shiftr (calIndicators cal test i) (2 * Z.of_nat i)) 0x02
          =? 0
       then setBatterySoC (batteryCapacity cfg (Z.of_nat i)) 0
              (withHealthState missingH b)
       else b)
    bats.

(** One test: switches, missing batteries, the row of results and the
    progress message. *)
Definition calibrationTest (r : CalibrationRun) (test : nat) : CalibrationRun :=
  let st := runState r in
  let st' :=
    mkMonitor (markMissing test (battery st)) (batteryUnderCharge st)
      (batteryUnderLoad st) (chargerOff st) (calibrate st) (currentOffsets st)
      (decisionStatus st) (chargingPhase st)
      (rev (testSwitches test) ++ switchCalls st) (panelSwitchSetting st) in
  mkCalibrationRun st' (runProgress r ++ [Z.of_nat test])
    (runResults r ++ [map (calCurrent cal test) (seq 0 NUM_IFS)])
    (runQuiescent r) (runRestored r).

(** [results[test][i]] *)
Definition resultAt (results : list (list Z)) (test i : nat) : Z :=
  default 0 (l ← results !! test; l !! i).

(** The offset of interface [i]: the lowest result above the threshold. *)
Definition offsetOf (results : list (list Z)) (i : nat) : Z :=
  let lowest :=
    foldl (fun offset test =>
             let current := resultAt results test i in
             if current >? CALIBRATION_THRESHOLD then
               if current <? offset then current else offset
             else offset)
          OFFSET_START_VALUE (seq 0 NUM_TESTS) in
  if lowest =? OFFSET_START_VALUE then 0 else lowest.

(** The results with the offsets removed. *)
Definition removeOffsets (results : list (list Z)) : list (list Z) :=
  map (fun row =>
         imap (fun i current => s16 (current - offsetOf results i)) row)
      results.

(** The quiescent current: the highest corrected current of the batteries
    present. *)
Definition quiescentCurrent (bats : list batteryStates)
  (results : list (list Z)) : Z :=
  foldl (fun q i =>
           if negb (isMissing (batteryAt env bats (Z.of_nat i))) then
             foldl (fun q test =>
                      let current := resultAt results test i in
                      if current >? CALIBRATION_THRESHOLD then
                        if current >? q then current else q
                      else q)
                   q (seq 0 NUM_TESTS)
           else q)
        (-100) (seq 0 NUM_BATS).

(** The reset of the battery states at the end of the calibration. *)
Definition reseed (i : nat) (b : batteryStates) : batteryStates :=
  if negb (isMissing b) then
    withOpState isolatedO
      (withIsolationTime 0 (withCurrentSteady 0 (resetFromOCV cfg env i b)))
  else b.

(** The calibration sequence of [prvMonitorTask]. *)
Definition calibration (st : Monitor) : CalibrationRun :=
  let switchSettings := calSwitchControlBits cal in
  let st0 :=
    mkMonitor (battery st) (batteryUnderCharge st) (batteryUnderLoad st)
      (chargerOff st) (calibrate st) (map (fun _ => 0) (seq 0 NUM_IFS))
      (decisionStatus st) (chargingPhase st) (switchCalls st)
      (panelSwitchSetting st) in
  let r :=
    foldl calibrationTest (mkCalibrationRun st0 [] [] (-100) switchSettings)
          (seq 0 NUM_TESTS) in
  let offsets := map (offsetOf (runResults r)) (seq 0 NUM_IFS) in
  let results := removeOffsets (runResults r) in
  let bats := battery (runState r) in
  let q := quiescentCurrent bats results in
  let st1 :=
    mkMonitor (forEachBattery NUM_BATS reseed bats) 0 0
      (chargerOff st) false offsets (decisionStatus st) (chargingPhase st)
      (switchCalls (runState r)) (panelSwitchSetting st) in
  mkCalibrationRun st1 (runProgress r) results q switchSettings.

End Calibration.

(** ** One pass of the main loop *)

(** The calibration, when one was requested. *)
Definition enterPass (NUM_BATS NUM_LOADS NUM_PANELS : nat) (cfg : Config)
  (calEnv : Readings) (cal : CalibrationReadings) (st : Monitor) : Monitor :=
  if calibrate st
  then runState (calibration NUM_BATS NUM_LOADS NUM_PANELS cfg calEnv cal st)
  else st.

Definition monitorPass (NUM_BATS NUM_LOADS NUM_PANELS : nat)
  (WEAK_VOLTAGE TEMPERATURE_LIMIT : Z) (cfg : Config)
  (calEnv : Readings) (cal : CalibrationReadings) (env : Readings)
  (st : Monitor) : Monitor :=
  manage NUM_BATS WEAK_VOLTAGE TEMPERATURE_LIMIT cfg env
    (enterPass NUM_BATS NUM_LOADS NUM_PANELS cfg calEnv cal st).

(** ** Auxiliary definitions for the properties *)

(** The model of the curve without the conversions. *)
Definition curve (ocv : Z) (type : battery_Type) : Z :=
  let v100 := if bool_decide (type = wetT) then 3242 else 3280 in
  let soc := 100 * (65536 - 320 * (v100 - ocv)) in
  if bool_decide (type = gelT) || bool_decide (type = agmT) then
    if ocv <? 3178 then
      if ocv >? 3075 then soc + 100 * 160 * (3178 - ocv)
      else soc + 100 * 160 * (3178 - 3075)
    else soc
  else soc.

Definition clampSoC (soc : Z) : Z :=
  let soc := if soc >? 100 * 256 then 100 * 256 else soc in
  if soc <? 0 then 0 else soc.

(** The bounds of the battery record for a battery of the given capacity. *)
Definition inBounds (capacity : Z) (b : batteryStates) : Prop :=
  (0 <= SoC b <= 25600) /\ (0 <= charge b <= capacity * 3600 * 256).

(** The coupling of SoC and charge. *)
Definition coupled (capacity : Z) (b : batteryStates) : Prop :=
  SoC b = charge b / (capacity * 36).

(** The value of [numBats] in the pass that starts from [st]. *)
Definition numBatsOf (NUM_BATS : nat) (cfg : Config) (env : Readings)
  (st : Monitor) : Z :=
  countPresent NUM_BATS env
    (fst (fst (removeMissing NUM_BATS cfg (battery st) (batteryUnderLoad st)
                 (batteryUnderCharge st)))).

(** The ranking used in the pass that starts from [st]. *)
Definition rankedOf (NUM_BATS : nat) (WEAK_VOLTAGE : Z) (cfg : Config)
  (env : Readings) (st : Monitor) : list Z :=
  rankBatteries NUM_BATS env
    (updateBatteries NUM_BATS WEAK_VOLTAGE cfg env (chargingPhase st)
       (fst (fst (removeMissing NUM_BATS cfg (battery st)
                    (batteryUnderLoad st) (batteryUnderCharge st))))).

(** The decisions taken in the pass that starts from [st]. *)
Definition decided (NUM_BATS : nat) (WEAK_VOLTAGE : Z) (cfg : Config)
  (env : Readings) (st : Monitor) : Decision :=
  let r := removeMissing NUM_BATS cfg (battery st) (batteryUnderLoad st)
             (batteryUnderCharge st) in
  decisions NUM_BATS cfg env
    (updateBatteries NUM_BATS WEAK_VOLTAGE cfg env (chargingPhase st)
       (fst (fst r)))
    (numBatsOf NUM_BATS cfg env st) (chargingPhase st) (snd (fst r)) (snd r).

(** A value of [batteryUnderLoad] or [batteryUnderCharge] that does not
    name a missing battery. *)
Definition allocatable (NUM_BATS : nat) (env : Readings)
  (bats : list batteryStates) (k : Z) : Prop :=
  forall i : nat, (i < NUM_BATS)%nat -> k = Z.of_nat i + 1 ->
    isMissing (batteryAt env bats (Z.of_nat i)) = false.

(** Bit 8 (0x100) of the decision status. *)
Definition bit8 (decisionStatus : Z) : bool := Z.testbit decisionStatus 8.

(** ** A bank of three batteries of 100 Ah *)

Module Bank.

Definition cfg (strategy : Z) : Config :=
  mkConfig (fun _ => 100) (fun _ => wetT) 3072 2944 (50 * 256) (25 * 256)
    (95 * 256) strategy true 1000.

Definition WEAK_VOLTAGE : Z := 2880.
Definition TEMPERATURE_LIMIT : Z := 50.

(** A good, isolated battery at [soc] percent. *)
Definition bat (soc : Z) : batteryStates :=
  mkBattery 0 normalF isolatedO goodH 0 0 (soc * 256) (soc * 256 * 100 * 36) 0.

Definition absent : batteryStates :=
  mkBattery 0 normalF isolatedO missingH 0 0 0 0 0.

(** Memory around the array: the word in front of [battery[0]] reads as the
    SoC field [soc] of [battery[-1]], the rest reads as a missing battery. *)
Definition beside (soc : Z) : Z -> batteryStates :=
  fun i => if i =? -1 then withSoC soc absent else absent.

(** Readings: the three battery voltages, the panel voltage, 25C. *)
Definition readings (v1 v2 v3 panel : Z) (mem : Z -> batteryStates)
  : Readings :=
  mkReadings (fun i => if i =? 0 then v1 else if i =? 1 then v2 else v3)
    (fun _ => 100) (fun _ => 0) (fun _ => panel) (25 * 256) mem.

Definition start (bats : list batteryStates) (underCharge underLoad : Z)
  : Monitor :=
  mkMonitor bats underCharge underLoad false false [] 0 (fun _ => bulkC) [] 0.

Definition cal : CalibrationReadings :=
  mkCalibrationReadings (fun _ _ => 0xAA) (fun _ _ => 0) 0.

Definition pass (strategy : Z) (env : Readings) (st : Monitor) : Monitor :=
  monitorPass 3 2 1 WEAK_VOLTAGE TEMPERATURE_LIMIT (cfg strategy) env cal env
    st.

End Bank.

(** ** Further definitions for the properties *)

(** The state of the search after the first [n] array slots. *)
Definition longestAfter (env : Readings) (bats : list batteryStates)
  (n : nat) (s : Z * Z) : Prop :=
  (fst s = 0 /\ snd s = 0
   /\ forall j : nat, (j < n)%nat ->
        isMissing (batteryAt env bats (Z.of_nat j)) = false ->
        isolationTime (batteryAt env bats (Z.of_nat j)) <= 0)
  \/ (exists i : nat,
        (i < n)%nat /\ fst s = Z.of_nat i + 1
        /\ snd s = isolationTime (batteryAt env bats (Z.of_nat i))
        /\ isMissing (batteryAt env bats (Z.of_nat i)) = false
        /\ 0 < snd s
        /\ forall j : nat, (j < n)%nat ->
             isMissing (batteryAt env bats (Z.of_nat j)) = false ->
             isolationTime (batteryAt env bats (Z.of_nat j)) <= snd s
             /\ ((j < i)%nat ->
                 isolationTime (batteryAt env bats (Z.of_nat j)) < snd s)).


(** * Properties *)

(** ** Machine integers *)

Lemma u16_id x : 0 <= x < 2 ^ 16 -> u16 x = x.
Proof. intros H. unfold u16. apply Z.mod_small. exact H. Qed.

Lemma u32_id x : 0 <= x < 2 ^ 32 -> u32 x = x.
Proof. intros H. unfold u32. apply Z.mod_small. exact H. Qed.

Lemma u32_range x : 0 <= u32 x < 2 ^ 32.
Proof. unfold u32. apply Z.mod_pos_bound. lia. Qed.

Lemma s16_id x : - 2 ^ 15 <= x < 2 ^ 15 -> s16 x = x.
Proof. intros H. unfold s16. rewrite Z.mod_small; lia. Qed.

Lemma s32_id x : - 2 ^ 31 <= x < 2 ^ 31 -> s32 x = x.
Proof. intros H. unfold s32. rewrite Z.mod_small; lia. Qed.

Lemma s32_range x : - 2 ^ 31 <= s32 x < 2 ^ 31.
Proof.
  unfold s32.
  pose proof (Z.mod_pos_bound (x + 2 ^ 31) (2 ^ 32) ltac:(lia)). lia.
Qed.

(** Rewrites the innermost conversions that are the identity. *)
Ltac strip_s32 :=
  repeat match goal with
    | |- context [s32 ?x] =>
        lazymatch x with
        | context [s32 _] => fail
        | _ => rewrite (s32_id x) by lia
        end
    end.

(** ** The State of Charge model *)

Lemma shiftr20_u32_range x : 0 <= Z.shiftr (u32 x) 20 <= 4095.
Proof.
  pose proof (u32_range x) as H.
  rewrite Z.shiftr_div_pow2 by lia.
  split.
  - apply Z.div_pos; lia.
  - assert (u32 x / 2 ^ 20 < 4096); [|lia].
    apply Z.div_lt_upper_bound; lia.
Qed.

Lemma vFactorOf_range temperature :
  61441 <= vFactorOf temperature <= 65536.
Proof.
  unfold vFactorOf.
  pose proof (shiftr20_u32_range
                (u32 (42 * tDiffOf temperature) * tDiffOf temperature)) as H.
  rewrite u32_id; lia.
Qed.

Lemma computeSoC_eq voltage temperature type :
  computeSoC voltage temperature type
  = Some (socOfOcv (s32 (u32 (u32 voltage * 65536) / vFactorOf temperature))
            type).
Proof.
  unfold computeSoC, udiv32.
  pose proof (vFactorOf_range temperature) as H.
  destruct (Z.eqb_spec (vFactorOf temperature) 0) as [E|_]; [lia|].
  reflexivity.
Qed.

Lemma socOfOcv_range ocv type : 0 <= socOfOcv ocv type <= 25600.
Proof.
  unfold socOfOcv.
  match goal with |- context [Z.shiftr ?a 8] => generalize (Z.shiftr a 8) end.
  intros z.
  destruct (Z.gtb_spec z (100 * 256)); destruct (Z.ltb_spec z 0);
    repeat match goal with
      | |- context [if ?c then _ else _] =>
          match c with
          | _ >? _ => destruct (Z.gtb_spec (100 * 256) (100 * 256))
          | _ <? _ => destruct (Z.ltb_spec (100 * 256) 0)
          end
      end;
    rewrite s16_id; lia.
Qed.

Lemma socFromOCV_range voltage temperature type :
  0 <= socFromOCV voltage temperature type <= 25600.
Proof.
  unfold socFromOCV. rewrite computeSoC_eq. simpl. apply socOfOcv_range.
Qed.

Lemma clampSoC_range z : 0 <= clampSoC z <= 25600.
Proof.
  unfold clampSoC.
  destruct (Z.gtb_spec z (100 * 256)).
  - destruct (Z.ltb_spec (100 * 256) 0); lia.
  - destruct (Z.ltb_spec z 0); lia.
Qed.

Lemma clampSoC_mono a b : a <= b -> clampSoC a <= clampSoC b.
Proof.
  intros H. unfold clampSoC.
  destruct (Z.gtb_spec a (100 * 256)); destruct (Z.gtb_spec b (100 * 256));
    repeat match goal with
      | |- context [?x <? 0] => destruct (Z.ltb_spec x 0)
      end; lia.
Qed.

Lemma socOfOcv_clamp ocv type z :
  (let v100 := if bool_decide (type = wetT) then 3242 else 3280 in
   let soc := s32 (100 * s32 (65536 - s32 (320 * s32 (v100 - ocv)))) in
   (if bool_decide (type = gelT) || bool_decide (type = agmT) then
      if ocv <? 3178 then
        if ocv >? 3075 then s32 (soc + s32 (100 * 160 * s32 (3178 - ocv)))
        else s32 (soc + s32 (100 * 160 * s32 (3178 - 3075)))
      else soc
    else soc)) = z ->
  socOfOcv ocv type = clampSoC (Z.shiftr z 8).
Proof.
  intros <-. unfold socOfOcv. cbv zeta.
  match goal with |- s16 ?c = _ => change c with (clampSoC
    (Z.shiftr (let v100 := if bool_decide (type = wetT) then 3242 else 3280 in
   let soc := s32 (100 * s32 (65536 - s32 (320 * s32 (v100 - ocv)))) in
   (if bool_decide (type = gelT) || bool_decide (type = agmT) then
      if ocv <? 3178 then
        if ocv >? 3075 then s32 (soc + s32 (100 * 160 * s32 (3178 - ocv)))
        else s32 (soc + s32 (100 * 160 * s32 (3178 - 3075)))
      else soc
    else soc)) 8)) end.
  cbv zeta. apply s16_id.
  match goal with |- context [clampSoC ?z] => pose proof (clampSoC_range z) end.
  lia.
Qed.

Lemma socOfOcv_curve ocv type :
  0 <= ocv <= 69903 ->
  socOfOcv ocv type = clampSoC (Z.shiftr (curve ocv type) 8).
Proof.
  intros H. apply socOfOcv_clamp. unfold curve.
  destruct type; simpl;
    repeat match goal with
      | |- context [?a <? ?b] => destruct (Z.ltb_spec a b)
      | |- context [?a >? ?b] => destruct (Z.gtb_spec a b)
      end; strip_s32; reflexivity.
Qed.

Lemma curve_mono a b type : a <= b -> curve a type <= curve b type.
Proof.
  intros H. unfold curve.
  destruct type; simpl;
    repeat match goal with
      | |- context [?x <? ?y] => destruct (Z.ltb_spec x y)
      | |- context [?x >? ?y] => destruct (Z.gtb_spec x y)
      end; lia.
Qed.

Lemma socOfOcv_mono a b type :
  0 <= a -> a <= b -> b <= 69903 -> socOfOcv a type <= socOfOcv b type.
Proof.
  intros Ha Hab Hb.
  rewrite !socOfOcv_curve by lia.
  apply clampSoC_mono.
  rewrite !Z.shiftr_div_pow2 by lia.
  apply Z.div_le_mono; [lia|]. apply curve_mono. exact Hab.
Qed.

(** The open circuit voltage referred to 48.9C, for a 16 bit voltage. *)
Lemma ocv_small voltage temperature :
  0 <= voltage < 65536 ->
  s32 (u32 (u32 voltage * 65536) / vFactorOf temperature)
  = voltage * 65536 / vFactorOf temperature
  /\ 0 <= voltage * 65536 / vFactorOf temperature <= 69903.
Proof.
  intros H.
  pose proof (vFactorOf_range temperature) as HF.
  rewrite (u32_id voltage) by lia.
  rewrite (u32_id (voltage * 65536)) by lia.
  assert (0 <= voltage * 65536 / vFactorOf temperature <= 69903) as Hq.
  { split.
    - apply Z.div_pos; lia.
    - assert (voltage * 65536 / vFactorOf temperature < 69904); [|lia].
      apply Z.div_lt_upper_bound; [lia|]. nia. }
  split; [|exact Hq].
  apply s32_id. lia.
Qed.

(** C10: the divisor [vFactor] of [computeSoC] lies in 61441..65536 for every
    temperature, so the division that gives [ocv] never divides by zero and
    [computeSoC] returns a value for every voltage, temperature and type. *)
Theorem computeSoC_divisor_range :
  forall voltage temperature type,
    61441 <= vFactorOf temperature <= 65536
    /\ exists soc, computeSoC voltage temperature type = Some soc.
Proof.
  intros voltage temperature type. split.
  - apply vFactorOf_range.
  - eexists. apply computeSoC_eq.
Qed.



(** ** The battery record: fill state, bounds and coupling *)

Lemma capacity_s16 capacity : 0 < capacity <= 2330 -> s16 capacity = capacity.
Proof. intros H. apply s16_id. lia. Qed.

Lemma integrateCharge_charge capacity acc b :
  0 < capacity <= 2330 ->
  0 <= charge (integrateCharge capacity acc b) <= capacity * 3600 * 256.
Proof.
  intros H. unfold integrateCharge. rewrite (capacity_s16 _ H). simpl.
  pose proof (s32_range (charge b + s16 acc)) as Hc.
  set (c := s32 (charge b + s16 acc)) in *.
  rewrite (s32_id (capacity * 3600)) by lia.
  rewrite (s32_id (capacity * 3600 * 256)) by lia.
  rewrite (u32_id (capacity * 3600 * 256)) by lia.
  destruct (Z.ltb_spec c 0).
  - rewrite (u32_id 0) by lia.
    destruct (Z.gtb_spec 0 (capacity * 3600 * 256)); lia.
  - rewrite (u32_id c) by lia.
    destruct (Z.gtb_spec c (capacity * 3600 * 256)); [|lia].
    rewrite s32_id; lia.
Qed.

Lemma integrateCharge_SoC capacity acc b :
  0 < capacity <= 2330 ->
  SoC (integrateCharge capacity acc b)
  = charge (integrateCharge capacity acc b) / (capacity * 36)
  /\ 0 <= SoC (integrateCharge capacity acc b) <= 25600.
Proof.
  intros H. pose proof (integrateCharge_charge capacity acc b H) as Hc.
  unfold integrateCharge in *. rewrite (capacity_s16 _ H) in *. simpl in *.
  match type of Hc with 0 <= ?c <= _ => set (ch := c) in * end.
  rewrite (s32_id (capacity * 36)) by lia.
  rewrite Z.quot_div_nonneg by lia.
  assert (0 <= ch / (capacity * 36) <= 25600) as Hq.
  { split.
    - apply Z.div_pos; lia.
    - assert (ch / (capacity * 36) < 25601); [|lia].
      apply Z.div_lt_upper_bound; lia. }
  rewrite u16_id by lia. split; [reflexivity|exact Hq].
Qed.

Lemma setBatterySoC_fields capacity soc b :
  0 < capacity <= 2330 -> 0 <= soc <= 25600 ->
  charge (setBatterySoC capacity soc b) = soc * capacity * 36
  /\ SoC (setBatterySoC capacity soc b)
     = (if SoC b >? 25600 then 25600 else soc).
Proof.
  intros Hc Hs. unfold setBatterySoC.
  rewrite (capacity_s16 _ Hc). rewrite (s16_id soc) by lia.
  rewrite (u16_id soc) by lia.
  assert (0 <= soc * capacity <= 25600 * 2330) by nia.
  rewrite (s32_id (soc * capacity)) by lia.
  rewrite (s32_id (soc * capacity * 36)) by lia.
  destruct (SoC b >? 25600); simpl; split; reflexivity.
Qed.

Lemma setBatterySoC_inBounds capacity soc b :
  0 < capacity <= 2330 -> 0 <= soc <= 25600 ->
  inBounds capacity (setBatterySoC capacity soc b).
Proof.
  intros Hc Hs.
  destruct (setBatterySoC_fields capacity soc b Hc Hs) as [E1 E2].
  unfold inBounds. rewrite E1, E2.
  destruct (SoC b >? 25600); nia.
Qed.

Lemma updateBattery_present WEAK_VOLTAGE cfg env phases i b :
  healthState b <> missingH ->
  updateBattery WEAK_VOLTAGE cfg env phases i b
  = let absV := u16 (Z.abs (getBatteryVoltage env (Z.of_nat i))) in
    restoreHealth (phases (Z.of_nat i))
      (labelWeak WEAK_VOLTAGE absV
         (collectFillState cfg absV
            (integrateCharge (batteryCapacity cfg (Z.of_nat i))
               (getBatteryAccumulatedCharge env (Z.of_nat i)) b))).
Proof.
  intros Hm. unfold updateBattery, isMissing.
  rewrite bool_decide_eq_false_2 by exact Hm. reflexivity.
Qed.

Lemma update_tail_fields WEAK_VOLTAGE cfg phase absV b :
  charge (restoreHealth phase
            (labelWeak WEAK_VOLTAGE absV (collectFillState cfg absV b)))
  = charge b
  /\ (SoC (restoreHealth phase
             (labelWeak WEAK_VOLTAGE absV (collectFillState cfg absV b)))
      = SoC b
      \/ SoC (restoreHealth phase
                (labelWeak WEAK_VOLTAGE absV (collectFillState cfg absV b)))
         = 0).
Proof.
  unfold restoreHealth, labelWeak, collectFillState.
  repeat match goal with
    | |- context [if ?c then _ else _] => destruct c
    end; simpl; auto.
Qed.

Lemma labelWeak_weak WEAK_VOLTAGE absV b :
  healthState b <> missingH -> absV < WEAK_VOLTAGE ->
  labelWeak WEAK_VOLTAGE absV b
  = withSoC 0 (withFillState criticalF (withHealthState weakH b)).
Proof.
  intros Hm Hv. unfold labelWeak, isMissing.
  rewrite bool_decide_eq_false_2 by exact Hm.
  destruct (Z.ltb_spec absV WEAK_VOLTAGE); [reflexivity|lia].
Qed.

Lemma fillStateOf_not_critical cfg v soc :
  criticalVoltage cfg <= lowVoltage cfg -> criticalSoC cfg <= lowSoC cfg ->
  fillStateOf cfg v soc <> criticalF.
Proof.
  intros Hv Hs. unfold fillStateOf.
  destruct (Z.ltb_spec v (lowVoltage cfg)); simpl; [discriminate|].
  destruct (Z.ltb_spec soc (lowSoC cfg)); simpl; [discriminate|].
  destruct (Z.ltb_spec v (criticalVoltage cfg)); [lia|].
  destruct (Z.ltb_spec soc (criticalSoC cfg)); [lia|].
  simpl. discriminate.
Qed.

(** C2: a battery at 12.9 V whose SoC is 10 percent, below the critical SoC
    of 25 percent and the low SoC of 50 percent, leaves the update of the
    battery state with fill state low, not critical. *)
Theorem fillState_low_shadows_critical :
  let b := updateBattery Bank.WEAK_VOLTAGE (Bank.cfg 3)
             (Bank.readings 3300 3300 3300 3584 (Bank.beside 0))
             (fun _ => bulkC) 0 (Bank.bat 10) in
  SoC b = 10 * 256
  /\ (SoC b <? criticalSoC (Bank.cfg 3)) = true
  /\ fillState b = lowF.
Proof. vm_compute. repeat split. Qed.

(** C4, as stated, fails: [setBatterySoC] with the argument -1 leaves the SoC
    at 65535 and the charge negative. *)
Lemma setBatterySoC_any_int16_counterexample :
  ~ inBounds 100 (setBatterySoC 100 (-1) (Bank.bat 50)).
Proof. unfold inBounds. vm_compute. intros [[_ H] _]. apply H. reflexivity. Qed.

(** C4, amended: for a battery of capacity 1..2330 Ah the bounds
    0 <= SoC <= 25600 and 0 <= charge <= capacity*3600*256 hold after the
    update of the battery state of a pass, after [setBatterySoC] with an
    argument in its documented range 0..25600, and after [resetBatterySoC]. *)
Theorem bounds_after_update :
  forall WEAK_VOLTAGE cfg env phases i capacity b,
    0 < capacity <= 2330 ->
    (batteryCapacity cfg (Z.of_nat i) = capacity ->
     healthState b <> missingH ->
     inBounds capacity (updateBattery WEAK_VOLTAGE cfg env phases i b))
    /\ (forall soc, 0 <= soc <= 25600 ->
        inBounds capacity (setBatterySoC capacity soc b))
    /\ inBounds capacity (resetBatterySoC capacity b).
Proof.
  intros WEAK_VOLTAGE cfg env phases i capacity b Hc.
  split; [|split].
  - intros Hcap Hm.
    rewrite updateBattery_present by exact Hm. cbv zeta. rewrite Hcap.
    pose proof (integrateCharge_charge capacity
                  (getBatteryAccumulatedCharge env (Z.of_nat i)) b Hc) as H1.
    pose proof (integrateCharge_SoC capacity
                  (getBatteryAccumulatedCharge env (Z.of_nat i)) b Hc)
      as [_ H2].
    match goal with
    | |- inBounds _ (restoreHealth ?p
                       (labelWeak ?w ?v (collectFillState ?c ?v ?x))) =>
        destruct (update_tail_fields w c p v x) as [Ec Es]
    end.
    unfold inBounds. rewrite Ec. destruct Es as [-> | ->]; lia.
  - intros soc Hs. apply setBatterySoC_inBounds; assumption.
  - unfold resetBatterySoC. apply setBatterySoC_inBounds; [assumption|lia].
Qed.

Lemma bounds_after_update_witness :
  let b := Bank.bat 50 in
  let env := Bank.readings 3300 3300 3300 3584 (Bank.beside 0) in
  (batteryCapacity (Bank.cfg 3) 0 = 100 ->
   healthState b <> missingH ->
   inBounds 100
     (updateBattery Bank.WEAK_VOLTAGE (Bank.cfg 3) env (fun _ => bulkC) 0 b))
  /\ (forall soc, 0 <= soc <= 25600 ->
      inBounds 100 (setBatterySoC 100 soc b))
  /\ inBounds 100 (resetBatterySoC 100 b).
Proof.
  apply (bounds_after_update Bank.WEAK_VOLTAGE (Bank.cfg 3)
           (Bank.readings 3300 3300 3300 3584 (Bank.beside 0))
           (fun _ => bulkC) 0%nat 100 (Bank.bat 50)).
  lia.
Defined.

(** C5, as stated, fails: a battery at 50 percent whose voltage is below the
    dropout voltage leaves the update with SoC 0 and its charge kept. *)
Lemma weak_battery_coupling_counterexample :
  ~ coupled 100
      (updateBattery Bank.WEAK_VOLTAGE (Bank.cfg 3)
         (Bank.readings 2816 3300 3300 3584 (Bank.beside 0))
         (fun _ => bulkC) 0 (Bank.bat 50)).
Proof. unfold coupled. vm_compute. discriminate. Qed.

(** C5, amended: for a battery of capacity 1..2330 Ah,
    SoC = charge / (capacity*36) holds after the integration of the
    accumulated charge, after the update of the battery state of a pass when
    the battery voltage is not below the dropout voltage, and after
    [setBatterySoC] with an argument in 0..25600 on a battery whose SoC is at
    most 25600; a battery below the dropout voltage leaves the update with
    SoC 0 and the integrated charge. *)
Theorem coupling_after_update :
  forall WEAK_VOLTAGE cfg env phases i capacity b,
    0 < capacity <= 2330 ->
    let acc := getBatteryAccumulatedCharge env (Z.of_nat i) in
    let absV := u16 (Z.abs (getBatteryVoltage env (Z.of_nat i))) in
    let b' := updateBattery WEAK_VOLTAGE cfg env phases i b in
    coupled capacity (integrateCharge capacity acc b)
    /\ (batteryCapacity cfg (Z.of_nat i) = capacity ->
        healthState b <> missingH ->
        (WEAK_VOLTAGE <= absV -> coupled capacity b')
        /\ (absV < WEAK_VOLTAGE ->
            SoC b' = 0
            /\ charge b' = charge (integrateCharge capacity acc b)))
    /\ (forall soc, 0 <= soc <= 25600 -> SoC b <= 25600 ->
        coupled capacity (setBatterySoC capacity soc b)).
Proof.
  intros WEAK_VOLTAGE cfg env phases i capacity b Hc acc absV b'.
  pose proof (integrateCharge_SoC capacity acc b Hc) as [E _].
  split; [exact E|]. split.
  - intros Hcap Hm.
    assert (b' = restoreHealth (phases (Z.of_nat i))
                   (labelWeak WEAK_VOLTAGE absV
                      (collectFillState cfg absV
                         (integrateCharge capacity acc b)))) as Eb.
    { subst b' acc absV. rewrite updateBattery_present by exact Hm.
      cbv zeta. rewrite Hcap. reflexivity. }
    split.
    + intros Hv. unfold coupled. rewrite Eb.
      unfold restoreHealth, labelWeak.
      destruct (Z.ltb_spec absV WEAK_VOLTAGE); [lia|].
      rewrite andb_false_r.
      destruct (_ && _); simpl; exact E.
    + intros Hv. rewrite Eb.
      assert (healthState (collectFillState cfg absV
                             (integrateCharge capacity acc b)) <> missingH)
        as Hm' by exact Hm.
      rewrite (labelWeak_weak _ _ _ Hm' Hv).
      unfold restoreHealth.
      destruct (_ && _); split; reflexivity.
  - intros soc Hs Hb. unfold coupled.
    destruct (setBatterySoC_fields capacity soc b Hc Hs) as [-> ->].
    destruct (Z.gtb_spec (SoC b) 25600); [lia|].
    replace (soc * capacity * 36) with (soc * (capacity * 36)) by lia.
    rewrite Z.div_mul; lia.
Qed.

Lemma coupling_after_update_witness :
  let b := Bank.bat 50 in
  let env := Bank.readings 3300 3300 3300 3584 (Bank.beside 0) in
  let b' := updateBattery Bank.WEAK_VOLTAGE (Bank.cfg 3) env
              (fun _ => bulkC) 0 b in
  coupled 100 (integrateCharge 100 0 b)
  /\ (batteryCapacity (Bank.cfg 3) 0 = 100 ->
      healthState b <> missingH ->
      (Bank.WEAK_VOLTAGE <= 3300 -> coupled 100 b')
      /\ (3300 < Bank.WEAK_VOLTAGE ->
          SoC b' = 0 /\ charge b' = charge (integrateCharge 100 0 b)))
  /\ (forall soc, 0 <= soc <= 25600 -> SoC b <= 25600 ->
      coupled 100 (setBatterySoC 100 soc b)).
Proof.
  apply (coupling_after_update Bank.WEAK_VOLTAGE (Bank.cfg 3)
           (Bank.readings 3300 3300 3300 3584 (Bank.beside 0))
           (fun _ => bulkC) 0%nat 100 (Bank.bat 50)).
  lia.
Defined.

(** ** Loops over the battery array *)

Lemma foldl_alter_lookup (body : nat -> batteryStates -> batteryStates)
  (n s : nat) (bats : list batteryStates) (i : nat) :
  foldl (fun bats i => alter (body i) i bats) bats (seq s n) !! i
  = if bool_decide (s <= i < s + n)%nat then body i <$> bats !! i
    else bats !! i.
Proof.
  revert s bats. induction n as [|n IH]; intros s bats; simpl.
  - rewrite bool_decide_eq_false_2 by lia. reflexivity.
  - rewrite IH.
    destruct (decide (i = s)) as [->|Hne].
    + rewrite bool_decide_eq_false_2 by lia.
      rewrite bool_decide_eq_true_2 by lia.
      apply list_lookup_alter_eq.
    + rewrite list_lookup_alter_ne by congruence.
      destruct (decide (S s <= i < S s + n)%nat).
      * rewrite !bool_decide_eq_true_2 by lia. reflexivity.
      * rewrite !bool_decide_eq_false_2 by lia. reflexivity.
Qed.

Lemma forEachBattery_lookup NUM_BATS body bats (i : nat) :
  (i < NUM_BATS)%nat ->
  forEachBattery NUM_BATS body bats !! i = body i <$> bats !! i.
Proof.
  intros H. unfold forEachBattery. rewrite foldl_alter_lookup.
  rewrite bool_decide_eq_true_2 by lia. reflexivity.
Qed.

Lemma forEachBattery_length NUM_BATS body bats :
  length (forEachBattery NUM_BATS body bats) = length bats.
Proof.
  unfold forEachBattery. generalize (seq 0 NUM_BATS). intros l.
  revert bats. induction l as [|k l IH]; intros bats; simpl; [reflexivity|].
  rewrite IH. apply length_alter.
Qed.

(** ** Calibration *)

Section CalibrationFacts.

Variables NUM_BATS NUM_LOADS NUM_PANELS : nat.
Variable cfg : Config.
Variable env : Readings.
Variable cal : CalibrationReadings.

Lemma tests_progress (l : list nat) (r : CalibrationRun) :
  runProgress
    (foldl (calibrationTest NUM_BATS NUM_LOADS NUM_PANELS cfg cal) r l)
  = runProgress r ++ map Z.of_nat l.
Proof.
  revert r. induction l as [|k l IH]; intros r; simpl.
  - rewrite app_nil_r. reflexivity.
  - rewrite IH. simpl. rewrite <- app_assoc. reflexivity.
Qed.

Lemma tests_length (l : list nat) (r : CalibrationRun) :
  length (battery (runState
    (foldl (calibrationTest NUM_BATS NUM_LOADS NUM_PANELS cfg cal) r l)))
  = length (battery (runState r)).
Proof.
  revert r. induction l as [|k l IH]; intros r; simpl; [reflexivity|].
  rewrite IH. simpl. unfold markMissing. apply forEachBattery_length.
Qed.

Lemma reseed_fields (i : nat) (b : batteryStates) :
  healthState (reseed cfg env i b) = healthState b
  /\ (healthState b <> missingH ->
      opState (reseed cfg env i b) = isolatedO
      /\ isolationTime (reseed cfg env i b) = 0
      /\ currentSteady (reseed cfg env i b) = 0).
Proof.
  unfold reseed, isMissing.
  destruct (decide (healthState b = missingH)) as [E|E].
  - rewrite bool_decide_eq_true_2 by exact E. simpl. split; [reflexivity|].
    intros H. contradiction.
  - rewrite bool_decide_eq_false_2 by exact E. simpl.
    unfold resetFromOCV, setBatterySoC.
    destruct (SoC b >? 25600); simpl; auto.
Qed.

End CalibrationFacts.

(** C6, as stated, fails: with three batteries, two loads and one panel the
    calibration runs seven tests, not five. *)
Lemma calibration_five_tests_counterexample :
  length (runProgress
            (calibration 3 2 1 (Bank.cfg 3)
               (Bank.readings 3300 3300 3300 3584 (Bank.beside 0)) Bank.cal
               (Bank.start [Bank.bat 90; Bank.bat 80; Bank.bat 70] 0 0)))
  <> 5%nat.
Proof. vm_compute. discriminate. Qed.

(** C6, amended: every calibration runs the NUM_IFS + 1 tests 0..NUM_IFS in
    order, which is 6 + 1 = 7 tests for three batteries, two loads and one
    panel; at its end every battery that is not missing is isolated with
    isolation time 0 and steady current count 0, and no battery is under load
    or under charge. *)
Theorem calibration_run :
  forall NUM_BATS NUM_LOADS NUM_PANELS cfg env cal st,
    length (battery st) = NUM_BATS ->
    let r := calibration NUM_BATS NUM_LOADS NUM_PANELS cfg env cal st in
    runProgress r
    = map Z.of_nat (seq 0 (NUM_BATS + NUM_LOADS + NUM_PANELS + 1))
    /\ length (runProgress r)
       = (NUM_IFS NUM_BATS NUM_LOADS NUM_PANELS + 1)%nat
    /\ NUM_TESTS 3 2 1 = 7%nat
    /\ (forall i b,
          battery (runState r) !! i = Some b ->
          healthState b <> missingH ->
          opState b = isolatedO /\ isolationTime b = 0 /\ currentSteady b = 0)
    /\ batteryUnderLoad (runState r) = 0
    /\ batteryUnderCharge (runState r) = 0.
Proof.
  intros NUM_BATS NUM_LOADS NUM_PANELS cfg env cal st Hlen r.
  assert (runProgress r
          = map Z.of_nat (seq 0 (NUM_BATS + NUM_LOADS + NUM_PANELS + 1)))
    as Hp.
  { subst r. unfold calibration. simpl. rewrite tests_progress. reflexivity. }
  split; [exact Hp|]. split.
  { rewrite Hp, length_map, length_seq. reflexivity. }
  split; [reflexivity|]. split; [|split; reflexivity].
  intros i b Hi Hb. subst r. unfold calibration in Hi. simpl in Hi.
  assert (i < NUM_BATS)%nat as Hlt.
  { apply lookup_lt_Some in Hi.
    rewrite forEachBattery_length, tests_length in Hi. simpl in Hi. lia. }
  rewrite forEachBattery_lookup in Hi by exact Hlt.
  destruct (_ !! i) as [b0|] eqn:E0; [|discriminate].
  simpl in Hi. injection Hi as <-.
  destruct (reseed_fields cfg env i b0) as [Hh Hf].
  apply Hf. rewrite <- Hh. exact Hb.
Qed.

Lemma calibration_run_witness :
  let r := calibration 3 2 1 (Bank.cfg 3)
             (Bank.readings 3300 3300 3300 3584 (Bank.beside 0)) Bank.cal
             (Bank.start [Bank.bat 90; Bank.bat 80; Bank.bat 70] 2 1) in
  runProgress r = map Z.of_nat (seq 0 (3 + 2 + 1 + 1))
  /\ length (runProgress r) = (NUM_IFS 3 2 1 + 1)%nat
  /\ NUM_TESTS 3 2 1 = 7%nat
  /\ (forall i b,
        battery (runState r) !! i = Some b ->
        healthState b <> missingH ->
        opState b = isolatedO /\ isolationTime b = 0 /\ currentSteady b = 0)
  /\ batteryUnderLoad (runState r) = 0
  /\ batteryUnderCharge (runState r) = 0.
Proof.
  apply (calibration_run 3 2 1 (Bank.cfg 3)
           (Bank.readings 3300 3300 3300 3584 (Bank.beside 0)) Bank.cal
           (Bank.start [Bank.bat 90; Bank.bat 80; Bank.bat 70] 2 1)).
  reflexivity.
Defined.

(** ** Decisions: the charger at night and the decision status *)

Lemma bit8_lor a b : bit8 (Z.lor a b) = bit8 a || bit8 b.
Proof. unfold bit8. apply Z.lor_spec. Qed.

Lemma pick_bit8 accept candidates reason s :
  bit8 reason = false ->
  bit8 (snd (pick accept candidates reason s)) = bit8 (snd s).
Proof.
  intros H. unfold pick. destruct (find accept candidates); simpl.
  - rewrite bit8_lor, H. apply orb_false_r.
  - reflexivity.
Qed.

Section DecisionFacts.

Variable NUM_BATS : nat.
Variable cfg : Config.
Variable env : Readings.
Variable bats : list batteryStates.
Variable sort : list Z.
Variable numBats : Z.
Variable longestBattery : Z.
Variable phases : Z -> battery_Ch_States.

(** Splits the conditionals that do not come from a [pick]. *)
Ltac split_ifs :=
  repeat match goal with
    | |- context [if ?c then _ else _] => destruct c
    end.

Lemma oneBattery_bit8 ds :
  bit8 (snd (oneBattery env bats sort ds)) = bit8 ds.
Proof.
  unfold oneBattery. destruct (isWeak _); simpl;
    rewrite ?bit8_lor; simpl; rewrite ?orb_false_r; reflexivity.
Qed.

Lemma allocateCharger_bit8 isolatable lowestBattery underCharge ds :
  bit8 (snd (allocateCharger cfg env bats sort numBats longestBattery phases
               isolatable lowestBattery underCharge ds))
  = bit8 ds.
Proof.
  unfold allocateCharger. cbv zeta.
  split_ifs; rewrite ?pick_bit8 by reflexivity; simpl;
    rewrite ?bit8_lor; simpl; rewrite ?orb_false_r; reflexivity.
Qed.

Lemma allocateLoad_bit8 isolatable underCharge underLoad ds :
  bit8 (snd (allocateLoad cfg env bats sort numBats longestBattery
               isolatable underCharge underLoad ds))
  = bit8 ds.
Proof.
  unfold allocateLoad, followCharger, reviewLoad, seekLoad. cbv zeta.
  split_ifs; simpl; rewrite ?bit8_lor; simpl; rewrite ?orb_false_r;
    rewrite ?pick_bit8 by reflexivity; simpl; reflexivity.
Qed.

Lemma manyBatteries_bit8 off underCharge underLoad ds :
  bit8 (snd (manyBatteries cfg env bats sort numBats longestBattery phases
               off underCharge underLoad ds))
  = bit8 ds.
Proof.
  unfold manyBatteries. cbv zeta. simpl.
  rewrite allocateLoad_bit8.
  destruct off; simpl.
  - rewrite bit8_lor. apply orb_false_r.
  - rewrite allocateCharger_bit8, bit8_lor. apply orb_false_r.
Qed.

Lemma manyBatteries_off underCharge underLoad ds :
  fst (fst (manyBatteries cfg env bats sort numBats longestBattery phases
              true underCharge underLoad ds))
  = underCharge.
Proof. reflexivity. Qed.

Lemma preliminary_off underCharge :
  snd (fst (preliminary env bats sort numBats phases underCharge)) = true ->
  fst (fst (preliminary env bats sort numBats phases underCharge)) = 0.
Proof.
  unfold preliminary. cbv zeta.
  destruct (allInFloat _ _ _ _ _); simpl; [reflexivity|].
  destruct (panelAboveSome _ _ _ _); simpl; [discriminate|reflexivity].
Qed.

Lemma preliminary_bit8 underCharge :
  bit8 (snd (preliminary env bats sort numBats phases underCharge))
  = panelAboveSome env bats sort numBats.
Proof.
  unfold preliminary. cbv zeta.
  destruct (allInFloat _ _ _ _ _); destruct (panelAboveSome _ _ _ _);
    reflexivity.
Qed.

Lemma preliminary_night underCharge :
  panelAboveSome env bats sort numBats = false ->
  snd (fst (preliminary env bats sort numBats phases underCharge)) = true.
Proof.
  intros H. unfold preliminary. cbv zeta. rewrite H.
  destruct (allInFloat _ _ _ _ _); reflexivity.
Qed.

Lemma panelAboveSome_night :
  (forall j, isMissing (batteryAt env bats j) = false ->
             getPanelVoltage env 0 + 128 <= getBatteryVoltage env j) ->
  panelAboveSome env bats sort numBats = false.
Proof.
  intros H. unfold panelAboveSome.
  generalize (fromHighest sort numBats). intros l.
  induction l as [|index l IH]; simpl; [reflexivity|].
  rewrite IH. rewrite orb_false_r.
  destruct (isMissing (batteryAt env bats index)) eqn:E; [reflexivity|].
  specialize (H index E). simpl.
  destruct (Z.ltb_spec (getBatteryVoltage env index)
              (getPanelVoltage env 0 + 128)); [lia|reflexivity].
Qed.

End DecisionFacts.

Lemma manage_decided NUM_BATS WEAK_VOLTAGE TEMPERATURE_LIMIT cfg env st :
  let st' := manage NUM_BATS WEAK_VOLTAGE TEMPERATURE_LIMIT cfg env st in
  let d := decided NUM_BATS WEAK_VOLTAGE cfg env st in
  chargerOff st' = dChargerOff d
  /\ batteryUnderCharge st' = dUnderCharge d
  /\ batteryUnderLoad st' = dUnderLoad d
  /\ decisionStatus st' = dStatus d.
Proof. repeat split. Qed.

(** ** The bubble sort of the ranking *)

Lemma swap_neighbours_perm (k : nat) (l : list Z) a b :
  l !! k = Some a -> l !! S k = Some b ->
  <[S k := a]> (<[k := b]> l) ≡ₚ l.
Proof.
  revert l. induction k as [|k IH]; intros l Ha Hb.
  - destruct l as [|x [|y l]]; try discriminate.
    simpl in *. injection Ha as ->. injection Hb as ->. apply perm_swap.
  - destruct l as [|x l]; [discriminate|].
    simpl in *. apply perm_skip. apply IH; assumption.
Qed.

Lemma bubbleStep_perm swap (l : list Z) (k : nat) :
  bubbleStep swap l k ≡ₚ l.
Proof.
  unfold bubbleStep.
  destruct (l !! k) as [a|] eqn:Ea; [|reflexivity].
  destruct (l !! S k) as [b|] eqn:Eb; [|reflexivity].
  destruct (swap a b); [|reflexivity].
  apply swap_neighbours_perm; assumption.
Qed.

Lemma bubblePass_perm swap (l : list Z) (m : nat) :
  bubblePass swap l m ≡ₚ l.
Proof.
  unfold bubblePass. generalize (seq 0 m). intros ks. revert l.
  induction ks as [|k ks IH]; intros l; simpl; [reflexivity|].
  rewrite IH. apply bubbleStep_perm.
Qed.

Lemma bubbleSort_perm NUM_BATS swap (l : list Z) :
  bubbleSort NUM_BATS swap l ≡ₚ l.
Proof.
  unfold bubbleSort. generalize (seq 0 (NUM_BATS - 1)). intros ps. revert l.
  induction ps as [|i ps IH]; intros l; simpl; [reflexivity|].
  rewrite IH. apply bubblePass_perm.
Qed.

Lemma bubblePass_S swap (l : list Z) (m : nat) :
  bubblePass swap l (S m) = bubbleStep swap (bubblePass swap l m) m.
Proof.
  unfold bubblePass. rewrite seq_S, foldl_app. reflexivity.
Qed.

Lemma bubbleStep_length swap (l : list Z) k :
  length (bubbleStep swap l k) = length l.
Proof.
  unfold bubbleStep.
  destruct (l !! k); [|reflexivity]. destruct (l !! S k); [|reflexivity].
  destruct (swap _ _); [|reflexivity]. rewrite !length_insert. reflexivity.
Qed.

Lemma bubblePass_length swap (l : list Z) m :
  length (bubblePass swap l m) = length l.
Proof.
  induction m as [|m IH]; [reflexivity|].
  rewrite bubblePass_S, bubbleStep_length. exact IH.
Qed.

Section Partition.

Variable p : Z -> bool.

(** One pass moves an element that satisfies [p] to position [m], when there
    is one at a position up to [m]; the positions above [m] are not touched. *)
Lemma bubblePass_carry (l : list Z) (m : nat) :
  (m < length l)%nat ->
  let l' := bubblePass (fun a _ => p a) l m in
  (forall j, (m < j)%nat -> l' !! j = l !! j)
  /\ ((exists j a, (j <= m)%nat /\ l' !! j = Some a /\ p a = true)
      -> exists j a, (j <= m)%nat /\ l !! j = Some a /\ p a = true)
  /\ ((exists j a, (j <= m)%nat /\ l !! j = Some a /\ p a = true)
      -> exists b, l' !! m = Some b /\ p b = true).
Proof.
  induction m as [|m IH]; intros Hm; cbv zeta.
  - change (bubblePass (fun a _ => p a) l 0) with l.
    split; [reflexivity|]. split; [tauto|].
    intros (j & a & Hj & Ha & HP). assert (j = 0)%nat as -> by lia. eauto.
  - rewrite bubblePass_S.
    destruct (IH ltac:(lia)) as (Hup & Hback & Hcarry).
    set (l1 := bubblePass (fun a _ => p a) l m) in *.
    assert (length l1 = length l) as Hlen by apply bubblePass_length.
    destruct (lookup_lt_is_Some_2 l1 m ltac:(lia)) as [a Ha].
    destruct (lookup_lt_is_Some_2 l1 (S m) ltac:(lia)) as [b Hb].
    unfold bubbleStep. rewrite Ha, Hb.
    destruct (p a) eqn:Epa.
    + assert (exists j a, (j <= m)%nat /\ l !! j = Some a /\ p a = true)
        as Hl by (apply Hback; eauto).
      split; [|split].
      * intros j Hj. rewrite !list_lookup_insert_ne by lia. apply Hup. lia.
      * intros _. destruct Hl as (j & x & Hj & Hx & HPx).
        exists j, x. split; [lia|]. auto.
      * intros _. exists a. split; [|exact Epa].
        apply list_lookup_insert_eq. rewrite length_insert. lia.
    + split; [|split].
      * intros j Hj. apply Hup. lia.
      * intros (j & x & Hj & Hx & HPx).
        destruct (decide (j = S m)) as [->|Hne].
        -- exists (S m), x. split; [lia|]. rewrite <- Hup by lia. auto.
        -- destruct Hback as (j' & x' & Hj' & Hx' & HPx').
           { exists j, x. split; [lia|]. auto. }
           exists j', x'. split; [lia|]. auto.
      * intros (j & x & Hj & Hx & HPx).
        destruct (decide (j = S m)) as [->|Hne].
        -- exists x. rewrite Hup by lia. auto.
        -- destruct Hcarry as (y & Hy & HPy).
           { exists j, x. split; [lia|]. auto. }
           rewrite Ha in Hy. injection Hy as <-. congruence.
Qed.

(** After the pass over the positions up to [m], the list is closed upwards
    from position [m - 1] on, and position [m] satisfies [p] when a position
    below does. *)
Lemma bubblePass_closes (l : list Z) (m : nat) :
  (m < length l)%nat ->
  (forall j a b, (S m <= S j)%nat ->
     l !! j = Some a -> l !! S j = Some b -> p a = true -> p b = true) ->
  (forall j a b, (j <= S m)%nat ->
     l !! j = Some a -> p a = true -> l !! S m = Some b -> p b = true) ->
  let l' := bubblePass (fun a _ => p a) l m in
  (forall j a b, (m <= S j)%nat ->
     l' !! j = Some a -> l' !! S j = Some b -> p a = true -> p b = true)
  /\ (forall j a b, (j <= m)%nat ->
       l' !! j = Some a -> p a = true -> l' !! m = Some b -> p b = true).
Proof.
  intros Hm Hup Htop l'.
  destruct (bubblePass_carry l m Hm) as (Hsame & Hback & Hcarry).
  fold l' in Hsame, Hback, Hcarry.
  assert (forall j a, (j <= m)%nat -> l' !! j = Some a -> p a = true ->
                      forall b, l' !! m = Some b -> p b = true) as Hm'.
  { intros j a Hj Ha Hpa b Hb.
    destruct Hcarry as (y & Hy & Hpy).
    { apply Hback. exists j, a. auto. }
    rewrite Hb in Hy. injection Hy as <-. exact Hpy. }
  split.
  - intros j a b Hj Ha Hb Hpa.
    destruct (decide (m < j)%nat) as [Hgt|Hle].
    + rewrite Hsame in Ha by lia. rewrite Hsame in Hb by lia.
      apply (Hup j a b); auto; lia.
    + destruct (decide (j = m)) as [->|Hne].
      * rewrite Hsame in Hb by lia.
        destruct Hback as (j' & x' & Hj' & Hx' & HPx').
        { exists m, a. auto. }
        apply (Htop j' x' b); auto.
      * assert (S j = m) as E by lia. rewrite E in Hb.
        apply (Hm' j a); auto; lia.
  - intros j a b Hj Ha Hpa Hb. apply (Hm' j a); auto.
Qed.

Lemma bubbleSort_closes (n s NUM_BATS : nat) (l : list Z) :
  (s + n = NUM_BATS - 1)%nat ->
  length l = NUM_BATS ->
  (forall j a b, (NUM_BATS - s <= S j)%nat ->
     l !! j = Some a -> l !! S j = Some b -> p a = true -> p b = true) ->
  (forall j a b, (j <= NUM_BATS - s)%nat ->
     l !! j = Some a -> p a = true -> l !! (NUM_BATS - s)%nat = Some b ->
     p b = true) ->
  let l' := foldl (fun l i => bubblePass (fun a _ => p a) l
                                (NUM_BATS - i - 1)) l (seq s n) in
  length l' = NUM_BATS
  /\ forall j a b, (NUM_BATS - s - n <= S j)%nat ->
       l' !! j = Some a -> l' !! S j = Some b -> p a = true -> p b = true.
Proof.
  revert s l. induction n as [|n IH]; intros s l Hs Hlen Hup Htop; simpl.
  - split; [exact Hlen|]. intros j a b Hj. apply Hup. lia.
  - assert (NUM_BATS - s = S (NUM_BATS - s - 1))%nat as E by lia.
    rewrite E in Hup, Htop.
    destruct (bubblePass_closes l (NUM_BATS - s - 1) ltac:(lia) Hup Htop)
      as [Hup' Htop'].
    set (l1 := bubblePass (fun a _ => p a) l (NUM_BATS - s - 1)) in *.
    assert (length l1 = NUM_BATS) as Hlen1.
    { subst l1. rewrite bubblePass_length. exact Hlen. }
    replace (NUM_BATS - s - 1)%nat with (NUM_BATS - S s)%nat in Hup', Htop'
      by lia.
    destruct (IH (S s) l1 ltac:(lia) Hlen1 Hup' Htop') as [Hl Hc].
    split; [exact Hl|].
    intros j a b Hj. apply Hc. lia.
Qed.

(** After the sort every element that follows one satisfying [p] satisfies
    [p]. *)
Lemma bubbleSort_partitions NUM_BATS (l : list Z) :
  length l = NUM_BATS ->
  forall j j' a b, (j <= j')%nat ->
    bubbleSort NUM_BATS (fun a _ => p a) l !! j = Some a ->
    bubbleSort NUM_BATS (fun a _ => p a) l !! j' = Some b ->
    p a = true -> p b = true.
Proof.
  intros Hlen.
  destruct (bubbleSort_closes (NUM_BATS - 1) 0 NUM_BATS l ltac:(lia) Hlen)
    as [Hl Hc].
  { intros j a b Hj Ha Hb. apply lookup_lt_Some in Hb. lia. }
  { intros j a b Hj Ha Hpa Hb. apply lookup_lt_Some in Hb. lia. }
  fold (bubbleSort NUM_BATS (fun a _ => p a) l) in Hl, Hc.
  set (l' := bubbleSort NUM_BATS (fun a _ => p a) l) in *.
  intros j j' a b Hjj'. revert b.
  induction Hjj' as [|j' Hle IH]; intros b Ha Hb Hpa.
  - congruence.
  - destruct (lookup_lt_is_Some_2 l' j') as [c Hc'].
    { apply lookup_lt_Some in Hb. lia. }
    apply (Hc j' c b); auto; lia.
Qed.

(** An element at a position below the number of elements that do not
    satisfy [p] does not satisfy [p]. *)
Lemma partitioned_front (l : list Z) (j : nat) a :
  (forall j j' a b, (j <= j')%nat -> l !! j = Some a -> l !! j' = Some b ->
                    p a = true -> p b = true) ->
  (j + length (filter (fun a => p a = true) l) < length l)%nat ->
  l !! j = Some a -> p a = false.
Proof.
  intros Hclosed Hj Ha.
  destruct (p a) eqn:Epa; [exfalso|reflexivity].
  assert (Forall (fun a => p a = true) (drop j l)) as Hall.
  { apply Forall_lookup. intros i x Hx. rewrite lookup_drop in Hx.
    apply (Hclosed j (j + i)%nat a x); auto; lia. }
  assert (filter (fun a => p a = true) (drop j l) = drop j l) as Hf.
  { clear -Hall. induction Hall as [|x k Hx Hk IH]; [reflexivity|].
    rewrite filter_cons_True by exact Hx. rewrite IH. reflexivity. }
  rewrite <- (take_drop j l) in Hj at 1.
  rewrite filter_app, length_app, Hf, length_drop in Hj.
  lia.
Qed.

End Partition.

(** ** The ranking holds the batteries present in front *)

Section RankFacts.

Variable NUM_BATS : nat.
Variable env : Readings.
Variable bats : list batteryStates.

Lemma rankBatteries_perm :
  rankBatteries NUM_BATS env bats
  ≡ₚ map (fun i => Z.of_nat i + 1) (seq 0 NUM_BATS).
Proof.
  unfold rankBatteries. cbv zeta.
  rewrite bubbleSort_perm. apply bubbleSort_perm.
Qed.

Lemma rankBatteries_length :
  length (rankBatteries NUM_BATS env bats) = NUM_BATS.
Proof.
  rewrite (Permutation_length rankBatteries_perm).
  rewrite length_map, length_seq. reflexivity.
Qed.

Lemma rankBatteries_range (j : nat) k :
  rankBatteries NUM_BATS env bats !! j = Some k ->
  exists i : nat, (i < NUM_BATS)%nat /\ k = Z.of_nat i + 1.
Proof.
  intros H. apply list_elem_of_lookup_2 in H.
  rewrite rankBatteries_perm in H.
  apply list_elem_of_In, in_map_iff in H.
  destruct H as (i & <- & Hi). apply in_seq in Hi.
  exists i. split; [lia|reflexivity].
Qed.

Lemma missing_numbers (l : list nat) :
  length (filter (fun a => isMissing (batteryAt env bats (a - 1)) = true)
            (map (fun i => Z.of_nat i + 1) l))
  = length (filter (fun i => isMissing (batteryAt env bats (Z.of_nat i))
                             = true) l).
Proof.
  induction l as [|i l IH]; [reflexivity|].
  simpl map. rewrite !filter_cons.
  replace (Z.of_nat i + 1 - 1) with (Z.of_nat i) by lia.
  destruct (decide (isMissing (batteryAt env bats (Z.of_nat i)) = true));
    simpl; rewrite IH; reflexivity.
Qed.

Lemma countPresent_fold (l : list nat) (numBats : Z) :
  Z.of_nat (length l) <= numBats <= 255 ->
  foldl (fun numBats i =>
           if isMissing (batteryAt env bats (Z.of_nat i))
           then u8 (numBats - 1) else numBats) numBats l
  = numBats
    - Z.of_nat (length (filter (fun i => isMissing
                                  (batteryAt env bats (Z.of_nat i)) = true)
                          l)).
Proof.
  revert numBats. induction l as [|i l IH]; intros numBats H; simpl.
  - lia.
  - simpl in H. rewrite filter_cons.
    destruct (isMissing (batteryAt env bats (Z.of_nat i))) eqn:E.
    + rewrite decide_True by reflexivity.
      assert (u8 (numBats - 1) = numBats - 1) as ->.
      { unfold u8. apply Z.mod_small. lia. }
      rewrite IH by lia. simpl length. lia.
    + rewrite decide_False by discriminate. apply IH. lia.
Qed.

Lemma countPresent_eq :
  (NUM_BATS <= 255)%nat ->
  countPresent NUM_BATS env bats
  = Z.of_nat NUM_BATS
    - Z.of_nat (length (filter (fun i => isMissing
                                  (batteryAt env bats (Z.of_nat i)) = true)
                          (seq 0 NUM_BATS))).
Proof.
  intros H. unfold countPresent.
  assert (u8 (Z.of_nat NUM_BATS) = Z.of_nat NUM_BATS) as ->.
  { unfold u8. apply Z.mod_small. lia. }
  apply countPresent_fold. rewrite length_seq. lia.
Qed.

Lemma countPresent_range :
  (NUM_BATS <= 255)%nat ->
  0 <= countPresent NUM_BATS env bats <= Z.of_nat NUM_BATS.
Proof.
  intros H. rewrite countPresent_eq by exact H.
  pose proof (length_filter
                (fun i => isMissing (batteryAt env bats (Z.of_nat i)) = true)
                (seq 0 NUM_BATS)) as Hf.
  rewrite length_seq in Hf. lia.
Qed.

(** The batteries ranked in the first [numBats] positions are present. *)
Lemma rankBatteries_front (j : nat) k :
  (NUM_BATS <= 255)%nat ->
  Z.of_nat j < countPresent NUM_BATS env bats ->
  rankBatteries NUM_BATS env bats !! j = Some k ->
  isMissing (batteryAt env bats (k - 1)) = false.
Proof.
  intros HN Hj Hk.
  pose proof rankBatteries_perm as Hperm.
  pose proof rankBatteries_length as Hlen.
  rewrite countPresent_eq in Hj by exact HN.
  rewrite <- missing_numbers in Hj.
  assert (length (filter (fun a => isMissing (batteryAt env bats (a - 1))
                                   = true)
                    (rankBatteries NUM_BATS env bats))
          = length (filter (fun a => isMissing (batteryAt env bats (a - 1))
                                     = true)
                      (map (fun i => Z.of_nat i + 1) (seq 0 NUM_BATS))))
    as Hcount.
  { apply Permutation_length. rewrite Hperm. reflexivity. }
  rewrite <- Hcount in Hj.
  apply (partitioned_front
           (fun a => isMissing (batteryAt env bats (a - 1)))
           (rankBatteries NUM_BATS env bats) j k); [|lia|exact Hk].
  unfold rankBatteries. cbv zeta.
  apply bubbleSort_partitions.
  rewrite (Permutation_length (bubbleSort_perm _ _ _)).
  rewrite length_map, length_seq. reflexivity.
Qed.

Lemma sortAt_front (z : Z) :
  (NUM_BATS <= 255)%nat ->
  0 <= z < countPresent NUM_BATS env bats ->
  allocatable NUM_BATS env bats (sortAt (rankBatteries NUM_BATS env bats) z).
Proof.
  intros HN Hz. unfold sortAt.
  rewrite bool_decide_eq_true_2 by lia.
  pose proof (countPresent_range HN) as Hr.
  destruct (lookup_lt_is_Some_2 (rankBatteries NUM_BATS env bats)
              (Z.to_nat z)) as [k Hk].
  { rewrite rankBatteries_length. lia. }
  rewrite Hk. simpl.
  pose proof (rankBatteries_front (Z.to_nat z) k HN ltac:(lia) Hk) as Hp.
  intros i Hi ->. replace (Z.of_nat i + 1 - 1) with (Z.of_nat i) in Hp by lia.
  exact Hp.
Qed.

Lemma fromHighest_front k :
  (NUM_BATS <= 255)%nat ->
  In k (fromHighest (rankBatteries NUM_BATS env bats)
          (countPresent NUM_BATS env bats)) ->
  allocatable NUM_BATS env bats k.
Proof.
  intros HN H. unfold fromHighest in H. apply in_map_iff in H.
  destruct H as (i & <- & Hi). apply in_seq in Hi.
  apply sortAt_front; [exact HN|]. lia.
Qed.

Lemma fromLowest_front k :
  (NUM_BATS <= 255)%nat ->
  In k (fromLowest (rankBatteries NUM_BATS env bats)
          (countPresent NUM_BATS env bats)) ->
  allocatable NUM_BATS env bats k.
Proof.
  intros HN H. unfold fromLowest in H. apply in_map_iff in H.
  destruct H as (i & <- & Hi). apply in_seq in Hi.
  apply sortAt_front; [exact HN|]. lia.
Qed.

End RankFacts.

(** ** The allocations never name a missing battery *)

Lemma setBatterySoC_health capacity soc b :
  healthState (setBatterySoC capacity soc b) = healthState b.
Proof. unfold setBatterySoC. destruct (SoC b >? 25600); reflexivity. Qed.

Lemma setBatterySoC_opState capacity soc b :
  opState (setBatterySoC capacity soc b) = opState b.
Proof. unfold setBatterySoC. destruct (SoC b >? 25600); reflexivity. Qed.

Lemma allocatable_0 NUM_BATS env bats : allocatable NUM_BATS env bats 0.
Proof. intros i _ H. lia. Qed.

Lemma pick_keeps (A : Z -> Prop) accept candidates reason s :
  (forall k, In k candidates -> A k) ->
  A (fst s) -> A (fst (pick accept candidates reason s)).
Proof.
  intros Hc Hs. unfold pick.
  destruct (find accept candidates) as [k|] eqn:E; [|exact Hs].
  simpl. apply Hc. apply (find_some _ _ E).
Qed.

Section RemoveMissing.

Variable cfg : Config.

Lemma removeMissingStep_health s (k i : nat) :
  healthState <$> (fst (fst (removeMissingStep cfg s k)) !! i)
  = healthState <$> (fst (fst s) !! i).
Proof.
  destruct s as [[bats ul] uc]. unfold removeMissingStep.
  destruct (bats !! k) as [b|] eqn:E; [|reflexivity].
  destruct (isMissing b); [|reflexivity]. simpl.
  destruct (decide (k = i)) as [->|Hne].
  - rewrite list_lookup_insert_eq by (eapply lookup_lt_Some; exact E).
    rewrite E. unfold fmap, option_fmap, option_map.
    rewrite setBatterySoC_health. reflexivity.
  - rewrite list_lookup_insert_ne by exact Hne. reflexivity.
Qed.

Lemma removeMissingStep_length s (k : nat) :
  length (fst (fst (removeMissingStep cfg s k))) = length (fst (fst s)).
Proof.
  destruct s as [[bats ul] uc]. unfold removeMissingStep.
  destruct (bats !! k) as [b|]; [|reflexivity].
  destruct (isMissing b); [|reflexivity]. simpl. apply length_insert.
Qed.

Lemma removeMissingStep_allocations s (k : nat) :
  let s' := removeMissingStep cfg s k in
  (snd (fst s') = snd (fst s) \/ snd (fst s') = 0)
  /\ (snd s' = snd s \/ snd s' = 0)
  /\ (forall b, fst (fst s) !! k = Some b -> isMissing b = true ->
        snd (fst s') <> Z.of_nat k + 1 /\ snd s' <> Z.of_nat k + 1).
Proof.
  destruct s as [[bats ul] uc]. unfold removeMissingStep. simpl.
  destruct (bats !! k) as [b|] eqn:E.
  - destruct (isMissing b) eqn:Em; simpl.
    + destruct (Z.eqb_spec ul (Z.of_nat k + 1));
        destruct (Z.eqb_spec uc (Z.of_nat k + 1));
        (split; [auto|]; split; [auto|]; intros b' _ _; lia).
    + split; [auto|]. split; [auto|]. intros b' Hb' Hm.
      injection Hb' as <-. congruence.
  - split; [auto|]. split; [auto|]. intros b' Hb'. discriminate.
Qed.

Lemma removeMissing_fold (l : list nat) s :
  let r := foldl (removeMissingStep cfg) s l in
  length (fst (fst r)) = length (fst (fst s))
  /\ (forall i, healthState <$> (fst (fst r) !! i)
                = healthState <$> (fst (fst s) !! i))
  /\ (snd (fst r) = snd (fst s) \/ snd (fst r) = 0)
  /\ (snd r = snd s \/ snd r = 0)
  /\ (forall i b, In i l -> fst (fst s) !! i = Some b -> isMissing b = true ->
        snd (fst r) <> Z.of_nat i + 1 /\ snd r <> Z.of_nat i + 1).
Proof.
  revert s. induction l as [|k l IH]; intros s; simpl.
  - repeat split; auto. all: intros i b [].
  - destruct (IH (removeMissingStep cfg s k)) as (Hl & Hh & Hu & Hc & Hm).
    destruct (removeMissingStep_allocations s k) as (Hu1 & Hc1 & Hm1).
    split; [|split; [|split; [|split]]].
    + rewrite Hl. apply removeMissingStep_length.
    + intros i. rewrite Hh. apply removeMissingStep_health.
    + cbv zeta in Hu1. lia.
    + cbv zeta in Hc1. lia.
    + intros i b [<-|Hi] Hb Hmiss.
      * destruct (Hm1 b Hb Hmiss) as [N1 N2]. lia.
      * pose proof (removeMissingStep_health s k i) as Hh1.
        rewrite Hb in Hh1. simpl in Hh1.
        destruct (fst (fst (removeMissingStep cfg s k)) !! i) as [b1|] eqn:E1;
          [|discriminate].
        simpl in Hh1. injection Hh1 as Hh1.
        apply (Hm i b1 Hi E1).
        unfold isMissing in *. rewrite Hh1. exact Hmiss.
Qed.

Lemma removeMissing_allocatable NUM_BATS env bats underLoad underCharge :
  length bats = NUM_BATS ->
  let r := removeMissing NUM_BATS cfg bats underLoad underCharge in
  length (fst (fst r)) = NUM_BATS
  /\ allocatable NUM_BATS env (fst (fst r)) (snd (fst r))
  /\ allocatable NUM_BATS env (fst (fst r)) (snd r).
Proof.
  intros Hlen r.
  destruct (removeMissing_fold (seq 0 NUM_BATS) (bats, underLoad, underCharge))
    as (Hl & Hh & _ & _ & Hm).
  fold (removeMissing NUM_BATS cfg bats underLoad underCharge) in Hl, Hh, Hm.
  fold r in Hl, Hh, Hm. simpl in Hl, Hh, Hm.
  split; [lia|].
  assert (forall i : nat, (i < NUM_BATS)%nat ->
            isMissing (batteryAt env (fst (fst r)) (Z.of_nat i)) = true ->
            snd (fst r) <> Z.of_nat i + 1 /\ snd r <> Z.of_nat i + 1) as H.
  { intros i Hi Hmiss.
    destruct (lookup_lt_is_Some_2 bats i ltac:(lia)) as [b Hb].
    apply (Hm i b); [apply in_seq; lia|exact Hb|].
    specialize (Hh i). rewrite Hb in Hh.
    unfold batteryAt in Hmiss. rewrite bool_decide_eq_true_2 in Hmiss by lia.
    rewrite Nat2Z.id in Hmiss.
    destruct (fst (fst r) !! i) as [b1|]; [|discriminate].
    simpl in Hh, Hmiss. injection Hh as Hh.
    unfold isMissing in *. rewrite <- Hh. exact Hmiss. }
  split; intros i Hi Hk;
    destruct (isMissing (batteryAt env (fst (fst r)) (Z.of_nat i))) eqn:E;
    try reflexivity; destruct (H i Hi E); congruence.
Qed.

Lemma removeMissing_missing NUM_BATS env bats underLoad underCharge z :
  isMissing
    (batteryAt env
       (fst (fst (removeMissing NUM_BATS cfg bats underLoad underCharge))) z)
  = isMissing (batteryAt env bats z).
Proof.
  destruct (removeMissing_fold (seq 0 NUM_BATS) (bats, underLoad, underCharge))
    as (_ & Hh & _).
  fold (removeMissing NUM_BATS cfg bats underLoad underCharge) in Hh.
  simpl in Hh. unfold batteryAt.
  destruct (bool_decide (0 <= z)); [|reflexivity].
  specialize (Hh (Z.to_nat z)).
  destruct (_ !! Z.to_nat z) as [b1|]; destruct (bats !! Z.to_nat z) as [b|];
    try discriminate; [|reflexivity].
  simpl in Hh. injection Hh as Hh. simpl. unfold isMissing. rewrite Hh.
  reflexivity.
Qed.

End RemoveMissing.

Section LoopFacts.

Variable NUM_BATS : nat.
Variable env : Readings.

Lemma forEachBattery_missing body bats :
  (forall i b, isMissing (body i b) = isMissing b) ->
  forall z, isMissing (batteryAt env (forEachBattery NUM_BATS body bats) z)
            = isMissing (batteryAt env bats z).
Proof.
  intros Hb z. unfold batteryAt.
  destruct (bool_decide (0 <= z)); [|reflexivity].
  unfold forEachBattery. rewrite foldl_alter_lookup.
  destruct (bool_decide _); [|reflexivity].
  destruct (bats !! Z.to_nat z); simpl; [apply Hb|reflexivity].
Qed.

Lemma countPresent_ext bats1 bats2 :
  (forall z, isMissing (batteryAt env bats1 z)
             = isMissing (batteryAt env bats2 z)) ->
  countPresent NUM_BATS env bats1 = countPresent NUM_BATS env bats2.
Proof.
  intros H. unfold countPresent.
  generalize (u8 (Z.of_nat NUM_BATS)). generalize (seq 0 NUM_BATS).
  intros l. induction l as [|i l IH]; intros n; simpl; [reflexivity|].
  rewrite H. apply IH.
Qed.

Lemma allocatable_ext bats1 bats2 k :
  (forall z, isMissing (batteryAt env bats1 z)
             = isMissing (batteryAt env bats2 z)) ->
  allocatable NUM_BATS env bats2 k -> allocatable NUM_BATS env bats1 k.
Proof. intros H Ha i Hi Hk. rewrite H. apply Ha; assumption. Qed.

End LoopFacts.

Lemma restoreHealth_missing phase b :
  isMissing (restoreHealth phase b) = isMissing b.
Proof.
  unfold restoreHealth.
  destruct (isMissing b) eqn:E; simpl; [exact E|].
  destruct (bool_decide (phase = restC)); [reflexivity|exact E].
Qed.

Lemma labelWeak_missing WEAK_VOLTAGE absV b :
  isMissing (labelWeak WEAK_VOLTAGE absV b) = isMissing b.
Proof.
  unfold labelWeak.
  destruct (isMissing b) eqn:E; simpl; [exact E|].
  destruct (absV <? WEAK_VOLTAGE); [reflexivity|exact E].
Qed.

Lemma updateBattery_missing WEAK_VOLTAGE cfg env phases i b :
  isMissing (updateBattery WEAK_VOLTAGE cfg env phases i b) = isMissing b.
Proof.
  unfold updateBattery.
  destruct (isMissing b) eqn:E; simpl; [exact E|].
  rewrite restoreHealth_missing, labelWeak_missing. exact E.
Qed.

Lemma resetFromOCV_fields cfg env i b :
  healthState (resetFromOCV cfg env i b) = healthState b
  /\ opState (resetFromOCV cfg env i b) = opState b.
Proof.
  unfold resetFromOCV.
  rewrite setBatterySoC_health, setBatterySoC_opState. auto.
Qed.

Lemma idleReset_fields cfg env i b :
  healthState (idleReset cfg env i b) = healthState b
  /\ opState (idleReset cfg env i b) = opState b.
Proof.
  unfold idleReset, resetFromOCV. cbv zeta.
  destruct (negb (isMissing b)); [|auto].
  repeat match goal with
    | |- context [if ?c then _ else _] => destruct c
    end;
    cbn [healthState opState withIsolationTime withCurrentSteady];
    rewrite ?setBatterySoC_health, ?setBatterySoC_opState;
    cbn [healthState opState withIsolationTime withCurrentSteady];
    rewrite ?setBatterySoC_health, ?setBatterySoC_opState; auto.
Qed.

Lemma operationalState_fields cfg env underLoad underCharge i b :
  healthState (operationalState cfg env underLoad underCharge i b)
  = healthState b
  /\ (healthState b <> missingH ->
      opState (operationalState cfg env underLoad underCharge i b)
      = if (underCharge >? 0) && (Z.of_nat i =? underCharge - 1)
        then chargingO
        else if (underLoad >? 0) && (underLoad =? Z.of_nat i + 1)
             then loadedO else isolatedO).
Proof.
  unfold operationalState, isMissing.
  destruct (decide (healthState b = missingH)) as [E|E].
  - rewrite bool_decide_eq_true_2 by exact E. simpl. split; [reflexivity|].
    intros H. contradiction.
  - rewrite bool_decide_eq_false_2 by exact E. simpl.
    destruct ((underCharge >? 0) && (Z.of_nat i =? underCharge - 1));
      destruct ((underLoad >? 0) && (underLoad =? Z.of_nat i + 1)); simpl;
      unfold resetFromOCV;
      repeat match goal with
        | |- context [if ?c then _ else _] => destruct c
        end;
      cbn [healthState opState withIsolationTime withOpState];
      rewrite ?setBatterySoC_health, ?setBatterySoC_opState;
      cbn [healthState opState withIsolationTime withOpState]; auto.
Qed.

Section AllocationFacts.

Variable NUM_BATS : nat.
Variable cfg : Config.
Variable env : Readings.
Variable bats : list batteryStates.
Variable longestBattery : Z.
Variable phases : Z -> battery_Ch_States.
Hypothesis few : (NUM_BATS <= 255)%nat.

(** Walks through a chain of conditionals and picks. *)
Ltac walk Hcand :=
  repeat first
    [ apply pick_keeps; [exact Hcand|]
    | match goal with
      | |- allocatable _ _ _ (fst (if ?c then _ else _)) => destruct c
      | |- allocatable _ _ _ (if ?c then _ else _) => destruct c
      end
    | progress cbn [fst snd] ];
  try assumption; try apply allocatable_0.

Lemma oneBattery_allocatable decisionStatus :
  countPresent NUM_BATS env bats = 1 ->
  allocatable NUM_BATS env bats
    (fst (fst (oneBattery env bats (rankBatteries NUM_BATS env bats)
                 decisionStatus)))
  /\ allocatable NUM_BATS env bats
       (snd (fst (oneBattery env bats (rankBatteries NUM_BATS env bats)
                    decisionStatus))).
Proof.
  intros H1.
  assert (allocatable NUM_BATS env bats
            (sortAt (rankBatteries NUM_BATS env bats) 0)) as H0.
  { apply sortAt_front; [exact few|]. lia. }
  unfold oneBattery. destruct (isWeak _); simpl; split;
    auto using allocatable_0.
Qed.

Lemma allocateCharger_allocatable isolatable underCharge decisionStatus :
  1 < countPresent NUM_BATS env bats ->
  allocatable NUM_BATS env bats underCharge ->
  allocatable NUM_BATS env bats
    (fst (allocateCharger cfg env bats (rankBatteries NUM_BATS env bats)
            (countPresent NUM_BATS env bats) longestBattery phases isolatable
            (sortAt (rankBatteries NUM_BATS env bats)
               (countPresent NUM_BATS env bats - 1))
            underCharge decisionStatus)).
Proof.
  intros Hn Hc.
  assert (allocatable NUM_BATS env bats
            (sortAt (rankBatteries NUM_BATS env bats)
               (countPresent NUM_BATS env bats - 1))) as Hlow.
  { apply sortAt_front; [exact few|]. lia. }
  assert (forall k,
            In k (fromLowest (rankBatteries NUM_BATS env bats)
                    (countPresent NUM_BATS env bats)) ->
            allocatable NUM_BATS env bats k) as Hcand.
  { intros k. apply fromLowest_front. exact few. }
  unfold allocateCharger. cbv zeta. walk Hcand.
Qed.

Lemma allocateLoad_allocatable isolatable underCharge underLoad ds :
  allocatable NUM_BATS env bats underCharge ->
  allocatable NUM_BATS env bats underLoad ->
  allocatable NUM_BATS env bats
    (fst (allocateLoad cfg env bats (rankBatteries NUM_BATS env bats)
            (countPresent NUM_BATS env bats) longestBattery isolatable
            underCharge underLoad ds)).
Proof.
  intros Hc Hl.
  assert (forall k,
            In k (fromHighest (rankBatteries NUM_BATS env bats)
                    (countPresent NUM_BATS env bats)) ->
            allocatable NUM_BATS env bats k) as Hcand.
  { intros k. apply fromHighest_front. exact few. }
  unfold allocateLoad, followCharger, reviewLoad, seekLoad, releaseLoad.
  cbv zeta. walk Hcand.
Qed.

Lemma preliminary_allocatable underCharge :
  allocatable NUM_BATS env bats underCharge ->
  allocatable NUM_BATS env bats
    (fst (fst (preliminary env bats (rankBatteries NUM_BATS env bats)
                 (countPresent NUM_BATS env bats) phases underCharge))).
Proof.
  intros Hc. unfold preliminary, releaseFinished. cbv zeta.
  repeat match goal with
    | |- context [if ?c then _ else _] => destruct c
    end; cbn [fst snd]; try assumption; apply allocatable_0.
Qed.

End AllocationFacts.

Lemma decisions_allocatable NUM_BATS cfg env bats phases underLoad
  underCharge :
  (NUM_BATS <= 255)%nat ->
  allocatable NUM_BATS env bats underLoad ->
  allocatable NUM_BATS env bats underCharge ->
  let d := decisions NUM_BATS cfg env bats (countPresent NUM_BATS env bats)
             phases underLoad underCharge in
  allocatable NUM_BATS env bats (dUnderLoad d)
  /\ allocatable NUM_BATS env bats (dUnderCharge d).
Proof.
  intros few Hl Hc d. subst d. unfold decisions. cbv zeta.
  cbn [dUnderLoad dUnderCharge].
  set (ph := restartBulk cfg env bats _ _ phases).
  assert (allocatable NUM_BATS env bats
            (fst (fst (preliminary env bats (rankBatteries NUM_BATS env bats)
                         (countPresent NUM_BATS env bats) ph underCharge))))
    as Hp by (apply preliminary_allocatable; exact Hc).
  destruct (Z.eqb_spec (countPresent NUM_BATS env bats) 1) as [E1|N1].
  - split; apply oneBattery_allocatable; assumption.
  - destruct (Z.gtb_spec (countPresent NUM_BATS env bats) 1) as [G|G].
    + unfold manyBatteries. cbv zeta. cbn [fst snd].
      match goal with
      | |- context [allocateLoad _ _ _ _ _ _ _ (fst ?c)] =>
          assert (allocatable NUM_BATS env bats (fst c)) as Hch
      end.
      { destruct (snd (fst (preliminary _ _ _ _ _ _))); cbn [negb fst].
        - exact Hp.
        - apply allocateCharger_allocatable; [exact few|lia|exact Hp]. }
      split; [|exact Hch].
      apply allocateLoad_allocatable; [exact few|exact Hch|exact Hl].
    + cbn [fst snd]. split; assumption.
Qed.

(** ** The operational states at the end of a pass *)

Section EndOfPass.

Variables NUM_BATS NUM_LOADS NUM_PANELS : nat.
Variables WEAK_VOLTAGE TEMPERATURE_LIMIT : Z.
Variable cfg : Config.
Variable env : Readings.

Lemma manage_battery st :
  battery (manage NUM_BATS WEAK_VOLTAGE TEMPERATURE_LIMIT cfg env st)
  = let d := decided NUM_BATS WEAK_VOLTAGE cfg env st in
    forEachBattery NUM_BATS (idleReset cfg env)
      (forEachBattery NUM_BATS
         (operationalState cfg env (dUnderLoad d) (dUnderCharge d))
         (updateBatteries NUM_BATS WEAK_VOLTAGE cfg env (chargingPhase st)
            (fst (fst (removeMissing NUM_BATS cfg (battery st)
                         (batteryUnderLoad st) (batteryUnderCharge st)))))).
Proof. reflexivity. Qed.

Lemma decided_allocatable st :
  (NUM_BATS <= 255)%nat ->
  length (battery st) = NUM_BATS ->
  let d := decided NUM_BATS WEAK_VOLTAGE cfg env st in
  let bats := updateBatteries NUM_BATS WEAK_VOLTAGE cfg env (chargingPhase st)
                (fst (fst (removeMissing NUM_BATS cfg (battery st)
                             (batteryUnderLoad st) (batteryUnderCharge st)))) in
  length bats = NUM_BATS
  /\ allocatable NUM_BATS env bats (dUnderLoad d)
  /\ allocatable NUM_BATS env bats (dUnderCharge d).
Proof.
  intros few Hlen d bats.
  destruct (removeMissing_allocatable cfg NUM_BATS env (battery st)
              (batteryUnderLoad st) (batteryUnderCharge st) Hlen)
    as (Hl1 & Hul & Huc).
  set (r := removeMissing NUM_BATS cfg (battery st) (batteryUnderLoad st)
              (batteryUnderCharge st)) in *.
  assert (forall z, isMissing (batteryAt env bats z)
                    = isMissing (batteryAt env (fst (fst r)) z)) as Hsame.
  { intros z. subst bats. unfold updateBatteries.
    apply forEachBattery_missing. intros i b. apply updateBattery_missing. }
  split.
  { subst bats. unfold updateBatteries. rewrite forEachBattery_length.
    exact Hl1. }
  subst d. unfold decided. cbv zeta. fold r. fold bats.
  unfold numBatsOf. fold r.
  rewrite <- (countPresent_ext NUM_BATS env bats (fst (fst r)) Hsame).
  apply decisions_allocatable; [exact few| |].
  - apply (allocatable_ext NUM_BATS env bats (fst (fst r))); assumption.
  - apply (allocatable_ext NUM_BATS env bats (fst (fst r))); assumption.
Qed.

Lemma enterPass_length calEnv cal st :
  length (battery (enterPass NUM_BATS NUM_LOADS NUM_PANELS cfg calEnv cal st))
  = length (battery st).
Proof.
  unfold enterPass. destruct (calibrate st); [|reflexivity].
  unfold calibration. simpl.
  rewrite forEachBattery_length, tests_length. reflexivity.
Qed.

(** C3, amended: at the end of every pass, for every battery index [i]:
    when [batteryUnderLoad = i+1] and the charger is on another battery or on
    none, battery [i] is in state loaded; when the same battery is under load
    and under charge its state is charging; and a battery that is not
    missing is in state loaded only if it is the battery under load and not
    the battery under charge. *)
Theorem loaded_state_at_end :
  forall calEnv cal st,
    (NUM_BATS <= 255)%nat ->
    length (battery st) = NUM_BATS ->
    let st' := monitorPass NUM_BATS NUM_LOADS NUM_PANELS WEAK_VOLTAGE
                 TEMPERATURE_LIMIT cfg calEnv cal env st in
    forall (i : nat) b,
      battery st' !! i = Some b ->
      (batteryUnderLoad st' = Z.of_nat i + 1 ->
       batteryUnderCharge st' <> Z.of_nat i + 1 -> opState b = loadedO)
      /\ (batteryUnderLoad st' = Z.of_nat i + 1 ->
          batteryUnderCharge st' = Z.of_nat i + 1 -> opState b = chargingO)
      /\ (healthState b <> missingH -> opState b = loadedO ->
          batteryUnderLoad st' = Z.of_nat i + 1
          /\ batteryUnderCharge st' <> Z.of_nat i + 1).
Proof.
  intros calEnv cal st few Hlen st' i b Hb. subst st'.
  unfold monitorPass in *.
  set (st1 := enterPass NUM_BATS NUM_LOADS NUM_PANELS cfg calEnv cal st) in *.
  assert (length (battery st1) = NUM_BATS) as Hlen1.
  { subst st1. rewrite enterPass_length. exact Hlen. }
  destruct (manage_decided NUM_BATS WEAK_VOLTAGE TEMPERATURE_LIMIT cfg env st1)
    as (_ & -> & -> & _).
  rewrite manage_battery in Hb. cbv zeta in Hb.
  destruct (decided_allocatable st1 few Hlen1) as (Hl2 & Hul & Huc).
  set (d := decided NUM_BATS WEAK_VOLTAGE cfg env st1) in *.
  set (bats := updateBatteries _ _ _ _ _ _) in *.
  assert (i < NUM_BATS)%nat as Hi.
  { apply lookup_lt_Some in Hb.
    rewrite !forEachBattery_length in Hb. lia. }
  rewrite !forEachBattery_lookup in Hb by exact Hi.
  destruct (bats !! i) as [b2|] eqn:E2; [|discriminate].
  assert (b = idleReset cfg env i
                (operationalState cfg env (dUnderLoad d) (dUnderCharge d)
                   i b2)) as ->.
  { symmetry. apply (inj Some). exact Hb. }
  clear Hb.
  destruct (idleReset_fields cfg env i
              (operationalState cfg env (dUnderLoad d) (dUnderCharge d) i b2))
    as [-> ->].
  destruct (operationalState_fields cfg env (dUnderLoad d) (dUnderCharge d)
              i b2) as [-> Hop].
  assert (batteryAt env bats (Z.of_nat i) = b2) as Hat.
  { unfold batteryAt. rewrite bool_decide_eq_true_2 by lia.
    rewrite Nat2Z.id, E2. reflexivity. }
  assert (forall k, allocatable NUM_BATS env bats k -> k = Z.of_nat i + 1 ->
                    healthState b2 <> missingH) as Hpresent.
  { intros k Hk Ek. specialize (Hk i Hi Ek). rewrite Hat in Hk.
    unfold isMissing in Hk. apply bool_decide_eq_false in Hk. exact Hk. }
  clearbody d bats.
  split; [|split].
  - intros El Nc. rewrite (Hop (Hpresent _ Hul El)).
    destruct (Z.gtb_spec (dUnderCharge d) 0);
      destruct (Z.eqb_spec (Z.of_nat i) (dUnderCharge d - 1));
      destruct (Z.gtb_spec (dUnderLoad d) 0);
      destruct (Z.eqb_spec (dUnderLoad d) (Z.of_nat i + 1));
      simpl; try reflexivity; lia.
  - intros El Ec. rewrite (Hop (Hpresent _ Hul El)).
    destruct (Z.gtb_spec (dUnderCharge d) 0);
      destruct (Z.eqb_spec (Z.of_nat i) (dUnderCharge d - 1));
      simpl; try reflexivity; lia.
  - intros Hm. rewrite (Hop Hm).
    destruct (Z.gtb_spec (dUnderCharge d) 0);
      destruct (Z.eqb_spec (Z.of_nat i) (dUnderCharge d - 1));
      destruct (Z.gtb_spec (dUnderLoad d) 0);
      destruct (Z.eqb_spec (dUnderLoad d) (Z.of_nat i + 1));
      simpl; intros Ho; try discriminate Ho; lia.
Qed.

End EndOfPass.

(** C3, as stated, fails: a single battery carries the loads and the charger;
    the pass ends with [batteryUnderLoad = 1] and battery 0 in state
    charging, and no battery in state loaded. *)
Lemma load_and_charge_counterexample :
  let st' := Bank.pass 3
               (Bank.readings 3300 3300 3300 3584 (Bank.beside 0))
               (Bank.start [Bank.bat 90; Bank.absent; Bank.absent] 0 0) in
  batteryUnderLoad st' = 1
  /\ batteryUnderLoad st' <> 0
  /\ (opState <$> battery st' !! 0%nat) = Some chargingO
  /\ ~ (exists i b, battery st' !! i = Some b /\ opState b = loadedO).
Proof.
  vm_compute. repeat split; try discriminate.
  intros (i & b & Hb & Ho).
  destruct i as [|[|[|i]]]; simpl in Hb; try discriminate;
    injection Hb as <-; discriminate.
Qed.

Lemma loaded_state_at_end_witness :
  let st' := Bank.pass 3
               (Bank.readings 3300 3300 3300 3584 (Bank.beside 0))
               (Bank.start [Bank.bat 90; Bank.bat 80; Bank.bat 70] 0 0) in
  match battery st' !! 0%nat with
  | Some b =>
      (batteryUnderLoad st' = 1 ->
       batteryUnderCharge st' <> 1 -> opState b = loadedO)
      /\ (batteryUnderLoad st' = 1 ->
          batteryUnderCharge st' = 1 -> opState b = chargingO)
      /\ (healthState b <> missingH -> opState b = loadedO ->
          batteryUnderLoad st' = 1 /\ batteryUnderCharge st' <> 1)
  | None => False
  end.
Proof.
  cbv zeta.
  pose proof (loaded_state_at_end 3 2 1 Bank.WEAK_VOLTAGE
                Bank.TEMPERATURE_LIMIT (Bank.cfg 3)
                (Bank.readings 3300 3300 3300 3584 (Bank.beside 0))
                (Bank.readings 3300 3300 3300 3584 (Bank.beside 0)) Bank.cal
                (Bank.start [Bank.bat 90; Bank.bat 80; Bank.bat 70] 0 0)
                ltac:(lia) eq_refl 0%nat) as H.
  cbv zeta in H. unfold Bank.pass.
  destruct (battery _ !! 0%nat) as [b|] eqn:E.
  - exact (H b eq_refl).
  - vm_compute in E. discriminate E.
Defined.

(** ** The charger at the end of a pass *)

Section PassFacts.

Variables NUM_BATS NUM_LOADS NUM_PANELS : nat.
Variables WEAK_VOLTAGE TEMPERATURE_LIMIT : Z.
Variable cfg : Config.
Variable env : Readings.

Lemma decisions_off bats numBats phases underLoad underCharge :
  numBats <> 1 ->
  dChargerOff (decisions NUM_BATS cfg env bats numBats phases underLoad
                 underCharge) = true ->
  dUnderCharge (decisions NUM_BATS cfg env bats numBats phases underLoad
                  underCharge) = 0.
Proof.
  intros Hn. unfold decisions. cbv zeta. simpl. intros Hoff.
  destruct (Z.eqb_spec numBats 1) as [E|_]; [contradiction|].
  destruct (numBats >? 1).
  - rewrite Hoff. rewrite manyBatteries_off.
    apply preliminary_off. exact Hoff.
  - simpl. apply preliminary_off. exact Hoff.
Qed.

Lemma decisions_one bats phases underLoad underCharge :
  dUnderCharge (decisions NUM_BATS cfg env bats 1 phases underLoad
                  underCharge)
  = sortAt (rankBatteries NUM_BATS env bats) 0.
Proof.
  unfold decisions. cbv zeta. simpl. unfold oneBattery.
  destruct (isWeak _); reflexivity.
Qed.

Lemma decisions_bit8 bats numBats phases underLoad underCharge :
  bit8 (dStatus (decisions NUM_BATS cfg env bats numBats phases underLoad
                   underCharge))
  = panelAboveSome env bats (rankBatteries NUM_BATS env bats) numBats.
Proof.
  unfold decisions. cbv zeta. simpl.
  destruct (numBats =? 1); [|destruct (numBats >? 1)].
  - rewrite oneBattery_bit8. apply preliminary_bit8.
  - rewrite manyBatteries_bit8. apply preliminary_bit8.
  - simpl. apply preliminary_bit8.
Qed.

Lemma decisions_night bats numBats phases underLoad underCharge :
  (forall j, isMissing (batteryAt env bats j) = false ->
             getPanelVoltage env 0 + 128 <= getBatteryVoltage env j) ->
  dChargerOff (decisions NUM_BATS cfg env bats numBats phases underLoad
                 underCharge) = true.
Proof.
  intros H. unfold decisions. cbv zeta. simpl.
  apply preliminary_night. apply panelAboveSome_night. exact H.
Qed.

Lemma entering_missing st z :
  isMissing
    (batteryAt env
       (updateBatteries NUM_BATS WEAK_VOLTAGE cfg env (chargingPhase st)
          (fst (fst (removeMissing NUM_BATS cfg (battery st)
                       (batteryUnderLoad st) (batteryUnderCharge st))))) z)
  = isMissing (batteryAt env (battery st) z).
Proof.
  unfold updateBatteries.
  rewrite forEachBattery_missing
    by (intros i b; apply updateBattery_missing).
  apply removeMissing_missing.
Qed.

(** C1, amended: at the end of every pass in which the number of batteries
    that are not missing differs from 1, [chargerOff] implies
    [batteryUnderCharge = 0]; in a pass with exactly one battery the charger
    is allocated to the first ranked battery whatever [chargerOff] is. *)
Theorem charger_off_deallocates :
  forall calEnv cal st,
    let st1 := enterPass NUM_BATS NUM_LOADS NUM_PANELS cfg calEnv cal st in
    let st' := monitorPass NUM_BATS NUM_LOADS NUM_PANELS WEAK_VOLTAGE
                 TEMPERATURE_LIMIT cfg calEnv cal env st in
    (numBatsOf NUM_BATS cfg env st1 <> 1 ->
     chargerOff st' = true -> batteryUnderCharge st' = 0)
    /\ (numBatsOf NUM_BATS cfg env st1 = 1 ->
        batteryUnderCharge st'
        = sortAt (rankedOf NUM_BATS WEAK_VOLTAGE cfg env st1) 0).
Proof.
  intros calEnv cal st st1 st'. subst st'. unfold monitorPass. fold st1.
  destruct (manage_decided NUM_BATS WEAK_VOLTAGE TEMPERATURE_LIMIT cfg env
              st1) as (-> & -> & _ & _).
  unfold decided, rankedOf. cbv zeta. split.
  - apply decisions_off.
  - intros ->. apply decisions_one.
Qed.

(** C7, amended: in every pass in which every battery that is not missing
    reads a voltage of at least the panel voltage plus 128, and so does every
    slot next to the battery array that does not read as missing,
    [chargerOff] is set, bit 0x100 of the decision status is clear, and the
    charger is deallocated unless exactly one battery is present. *)
Theorem night_turns_charger_off :
  forall calEnv cal st,
    let st1 := enterPass NUM_BATS NUM_LOADS NUM_PANELS cfg calEnv cal st in
    (forall j, isMissing (batteryAt env (battery st1) j) = false ->
               getPanelVoltage env 0 + 128 <= getBatteryVoltage env j) ->
    let st' := monitorPass NUM_BATS NUM_LOADS NUM_PANELS WEAK_VOLTAGE
                 TEMPERATURE_LIMIT cfg calEnv cal env st in
    chargerOff st' = true
    /\ bit8 (decisionStatus st') = false
    /\ (numBatsOf NUM_BATS cfg env st1 <> 1 -> batteryUnderCharge st' = 0).
Proof.
  intros calEnv cal st st1 H st'. subst st'. unfold monitorPass. fold st1.
  destruct (manage_decided NUM_BATS WEAK_VOLTAGE TEMPERATURE_LIMIT cfg env
              st1) as (-> & -> & _ & ->).
  unfold decided. cbv zeta.
  assert (forall j,
            isMissing
              (batteryAt env
                 (updateBatteries NUM_BATS WEAK_VOLTAGE cfg env
                    (chargingPhase st1)
                    (fst (fst (removeMissing NUM_BATS cfg (battery st1)
                                 (batteryUnderLoad st1)
                                 (batteryUnderCharge st1))))) j) = false ->
            getPanelVoltage env 0 + 128 <= getBatteryVoltage env j) as H'.
  { intros j Hj. apply H. rewrite <- entering_missing. exact Hj. }
  split; [|split].
  - apply decisions_night. exact H'.
  - rewrite decisions_bit8. apply panelAboveSome_night. exact H'.
  - intros Hn. apply decisions_off; [exact Hn|].
    apply decisions_night. exact H'.
Qed.

End PassFacts.

(** C1, as stated, fails: with one battery present at night the pass ends
    with [chargerOff] set and the charger allocated to battery 1. *)
Lemma single_battery_charger_counterexample :
  let st' := Bank.pass 3
               (Bank.readings 3226 3226 3226 3072 (Bank.beside 0))
               (Bank.start [Bank.bat 90; Bank.absent; Bank.absent] 0 0) in
  ~ (chargerOff st' = true -> batteryUnderCharge st' = 0).
Proof. vm_compute. intros H. specialize (H eq_refl). discriminate. Qed.

Lemma charger_off_deallocates_witness :
  let env := Bank.readings 3226 3226 3226 3072 (Bank.beside 0) in
  let st := Bank.start [Bank.bat 90; Bank.bat 80; Bank.bat 70] 3 1 in
  let st1 := enterPass 3 2 1 (Bank.cfg 3) env Bank.cal st in
  let st' := Bank.pass 3 env st in
  (numBatsOf 3 (Bank.cfg 3) env st1 <> 1 ->
   chargerOff st' = true -> batteryUnderCharge st' = 0)
  /\ (numBatsOf 3 (Bank.cfg 3) env st1 = 1 ->
      batteryUnderCharge st'
      = sortAt (rankedOf 3 Bank.WEAK_VOLTAGE (Bank.cfg 3) env st1) 0).
Proof.
  apply (charger_off_deallocates 3 2 1 Bank.WEAK_VOLTAGE
           Bank.TEMPERATURE_LIMIT (Bank.cfg 3)
           (Bank.readings 3226 3226 3226 3072 (Bank.beside 0))
           (Bank.readings 3226 3226 3226 3072 (Bank.beside 0)) Bank.cal
           (Bank.start [Bank.bat 90; Bank.bat 80; Bank.bat 70] 3 1)).
Defined.

(** C7, as stated, fails: in the night scenario (panel 12.0 V, batteries at
    12.6 V) the charger is turned off and the decision status, 0x2010, does
    not include 0x100. *)
Lemma night_status_counterexample :
  let st' := Bank.pass 3
               (Bank.readings 3226 3226 3226 3072 (Bank.beside 0))
               (Bank.start [Bank.bat 90; Bank.bat 80; Bank.bat 70] 0 0) in
  chargerOff st' = true
  /\ batteryUnderCharge st' = 0
  /\ decisionStatus st' = 0x2010
  /\ ~ (Z.land (decisionStatus st') 0x100 = 0x100).
Proof. vm_compute. repeat split. discriminate. Qed.

Lemma night_turns_charger_off_witness :
  let env := Bank.readings 3226 3226 3226 3072 (Bank.beside 0) in
  let st := Bank.start [Bank.bat 90; Bank.bat 80; Bank.bat 70] 3 1 in
  let st1 := enterPass 3 2 1 (Bank.cfg 3) env Bank.cal st in
  let st' := Bank.pass 3 env st in
  chargerOff st' = true
  /\ bit8 (decisionStatus st') = false
  /\ (numBatsOf 3 (Bank.cfg 3) env st1 <> 1 -> batteryUnderCharge st' = 0).
Proof.
  apply (night_turns_charger_off 3 2 1 Bank.WEAK_VOLTAGE
           Bank.TEMPERATURE_LIMIT (Bank.cfg 3)
           (Bank.readings 3226 3226 3226 3072 (Bank.beside 0))
           (Bank.readings 3226 3226 3226 3072 (Bank.beside 0)) Bank.cal
           (Bank.start [Bank.bat 90; Bank.bat 80; Bank.bat 70] 3 1)).
  intros j _. unfold Bank.readings. simpl.
  destruct (j =? 0); [lia|]. destruct (j =? 1); lia.
Defined.

(** C8: at night with every battery low, the second look of the load
    allocation runs with no charger allocated and compares against
    [battery[-1]]: two passes that differ only in the memory word in front of
    the battery array end with different batteries under load. *)
Theorem load_review_reads_before_array :
  let st := Bank.start [withIsolationTime 100 (Bank.bat 40); Bank.bat 30;
                        Bank.bat 20] 0 0 in
  let night mem := Bank.readings 3226 3226 3226 3072 mem in
  batteryUnderCharge (Bank.pass 3 (night (Bank.beside 0)) st) = 0
  /\ batteryUnderLoad (Bank.pass 3 (night (Bank.beside 0)) st) = 2
  /\ batteryUnderCharge (Bank.pass 3 (night (Bank.beside 65535)) st) = 0
  /\ batteryUnderLoad (Bank.pass 3 (night (Bank.beside 65535)) st) = 1.
Proof. vm_compute. repeat split. Qed.

(** * Further properties of the monitor *)

(** ** The State of Charge model: range, saturation and temperature *)

(** [computeSoC] returns a percentage times 256 between 0 and 25600 for
    every voltage, temperature and battery type. *)
Theorem computeSoC_range :
  forall voltage temperature type,
    exists soc,
      computeSoC voltage temperature type = Some soc /\ 0 <= soc <= 25600.
Proof.
  intros voltage temperature type. eexists. split; [apply computeSoC_eq|].
  apply socOfOcv_range.
Qed.

Lemma ocv_at_least voltage temperature :
  0 <= voltage < 65536 ->
  voltage <= voltage * 65536 / vFactorOf temperature.
Proof.
  intros H. pose proof (vFactorOf_range temperature) as HF.
  transitivity (voltage * 65536 / 65536).
  - rewrite Z.div_mul by lia. lia.
  - apply Z.div_le_compat_l; lia.
Qed.

Lemma clampSoC_high z : 25600 <= z -> clampSoC z = 25600.
Proof.
  intros H. unfold clampSoC.
  destruct (Z.gtb_spec z (100 * 256)).
  - reflexivity.
  - destruct (Z.ltb_spec z 0); lia.
Qed.

Lemma clampSoC_low z : z <= 0 -> clampSoC z = 0.
Proof.
  intros H. unfold clampSoC.
  destruct (Z.gtb_spec z (100 * 256)); [lia|].
  destruct (Z.ltb_spec z 0); lia.
Qed.

(** At any temperature a battery at or above the full charge voltage of its
    type (3242 for wet cells, 3280 for gel and AGM) is given 100 percent, and
    a battery at or below 2800 (10.9 V) is given 0 percent. *)
Theorem computeSoC_saturates :
  forall type temperature voltage,
    0 <= voltage < 65536 ->
    ((if bool_decide (type = wetT) then 3242 else 3280) <= voltage ->
     computeSoC voltage temperature type = Some 25600)
    /\ (voltage <= 2800 -> computeSoC voltage temperature type = Some 0).
Proof.
  intros type temperature voltage Hv.
  destruct (ocv_small voltage temperature Hv) as [Eo [L U]].
  pose proof (ocv_at_least voltage temperature Hv) as Hge.
  pose proof (vFactorOf_range temperature) as HF.
  rewrite computeSoC_eq, Eo.
  set (ocv := voltage * 65536 / vFactorOf temperature) in *.
  rewrite socOfOcv_curve by lia.
  split; intros H; f_equal.
  - apply clampSoC_high. rewrite Z.shiftr_div_pow2 by lia.
    apply Z.div_le_lower_bound; [lia|].
    unfold curve. destruct type; simpl in *;
      repeat match goal with
        | |- context [?x <? ?y] => destruct (Z.ltb_spec x y)
        | |- context [?x >? ?y] => destruct (Z.gtb_spec x y)
        end; lia.
  - assert (ocv <= 2986) as Ho.
    { assert (ocv < 2987); [|lia]. subst ocv.
      apply Z.div_lt_upper_bound; lia. }
    apply clampSoC_low. rewrite Z.shiftr_div_pow2 by lia.
    assert (curve ocv type / 2 ^ 8 < 1); [|lia].
    apply Z.div_lt_upper_bound; [lia|].
    unfold curve. destruct type; simpl;
      repeat match goal with
        | |- context [?x <? ?y] => destruct (Z.ltb_spec x y)
        | |- context [?x >? ?y] => destruct (Z.gtb_spec x y)
        end; lia.
Qed.

Lemma computeSoC_saturates_witness :
  (3280 <= 3300 -> computeSoC 3300 6400 gelT = Some 25600)
  /\ (3300 <= 2800 -> computeSoC 3300 6400 gelT = Some 0).
Proof. apply (computeSoC_saturates gelT 6400 3300). lia. Defined.

Lemma tDiffOf_small temperature :
  0 <= temperature <= 12518 ->
  tDiffOf temperature = (12518 - temperature) / 4
  /\ 0 <= tDiffOf temperature <= 3129.
Proof.
  intros H. unfold tDiffOf.
  rewrite (u32_id temperature) by lia.
  rewrite (u32_id (12518 - temperature)) by lia.
  rewrite Z.shiftr_div_pow2 by lia. change (2 ^ 2) with 4.
  split; [reflexivity|]. split.
  - apply Z.div_pos; lia.
  - assert ((12518 - temperature) / 4 < 3130); [|lia].
    apply Z.div_lt_upper_bound; lia.
Qed.

Lemma vFactorOf_mono t1 t2 :
  0 <= t1 -> t1 <= t2 -> t2 <= 12518 ->
  vFactorOf t1 <= vFactorOf t2.
Proof.
  intros H0 H12 H2.
  destruct (tDiffOf_small t1 ltac:(lia)) as [E1 R1].
  destruct (tDiffOf_small t2 ltac:(lia)) as [E2 R2].
  assert (tDiffOf t2 <= tDiffOf t1) as Hd.
  { rewrite E1, E2. apply Z.div_le_mono; lia. }
  unfold vFactorOf. cbv zeta.
  pose proof (shiftr20_u32_range (u32 (42 * tDiffOf t1) * tDiffOf t1)) as S1.
  pose proof (shiftr20_u32_range (u32 (42 * tDiffOf t2) * tDiffOf t2)) as S2.
  rewrite !(u32_id (65536 - _)) by lia.
  assert (Z.shiftr (u32 (u32 (42 * tDiffOf t2) * tDiffOf t2)) 20
          <= Z.shiftr (u32 (u32 (42 * tDiffOf t1) * tDiffOf t1)) 20); [|lia].
  rewrite (u32_id (42 * tDiffOf t1)) by lia.
  rewrite (u32_id (42 * tDiffOf t2)) by lia.
  rewrite (u32_id (42 * tDiffOf t1 * tDiffOf t1)) by nia.
  rewrite (u32_id (42 * tDiffOf t2 * tDiffOf t2)) by nia.
  rewrite !Z.shiftr_div_pow2 by lia.
  apply Z.div_le_mono; [lia|]. nia.
Qed.

(** For temperatures up to the reference 48.9C (12518), a colder battery at
    the same terminal voltage is given a higher or equal State of Charge. *)
Theorem computeSoC_colder_is_fuller :
  forall type voltage t1 t2,
    0 <= voltage < 65536 ->
    0 <= t1 -> t1 <= t2 -> t2 <= 12518 ->
    exists s1 s2,
      computeSoC voltage t1 type = Some s1
      /\ computeSoC voltage t2 type = Some s2
      /\ s2 <= s1.
Proof.
  intros type voltage t1 t2 Hv H0 H12 H2.
  do 2 eexists. split; [apply computeSoC_eq|]. split; [apply computeSoC_eq|].
  destruct (ocv_small voltage t1 Hv) as [-> [L1 U1]].
  destruct (ocv_small voltage t2 Hv) as [-> [L2 U2]].
  pose proof (vFactorOf_range t1) as HF1.
  pose proof (vFactorOf_mono t1 t2 H0 H12 H2) as Hm.
  apply socOfOcv_mono; [exact L2| |exact U1].
  apply Z.div_le_compat_l; lia.
Qed.

Lemma computeSoC_colder_is_fuller_witness :
  exists s1 s2,
    computeSoC 3150 0 wetT = Some s1
    /\ computeSoC 3150 6400 wetT = Some s2
    /\ s2 <= s1.
Proof. apply (computeSoC_colder_is_fuller wetT 3150 0 6400); lia. Defined.

(** ** The accessors of the State of Charge *)

(** [setBatterySoC] with an argument in 0..25600 on a battery whose SoC is at
    most 25600 is read back by [getBatterySoC], sets the charge to
    soc * capacity * 36 and leaves the states and counters alone; on a
    battery whose SoC exceeds 25600 it stores 25600 whatever the argument. *)
Theorem setBatterySoC_read_back :
  forall capacity soc b,
    0 < capacity <= 2330 -> 0 <= soc <= 25600 ->
    let b' := setBatterySoC capacity soc b in
    getBatterySoC b' = (if SoC b >? 25600 then 25600 else soc)
    /\ charge b' = soc * capacity * 36
    /\ fillState b' = fillState b /\ opState b' = opState b
    /\ healthState b' = healthState b
    /\ currentSteady b' = currentSteady b
    /\ isolationTime b' = isolationTime b.
Proof.
  intros capacity soc b Hc Hs b'.
  destruct (setBatterySoC_fields capacity soc b Hc Hs) as [E1 E2].
  fold b' in E1, E2. unfold getBatterySoC. rewrite E1, E2.
  split.
  { destruct (SoC b >? 25600); apply s16_id; lia. }
  split; [reflexivity|].
  subst b'. unfold setBatterySoC.
  destruct (SoC b >? 25600); repeat split; reflexivity.
Qed.

Lemma setBatterySoC_read_back_witness :
  let b' := setBatterySoC 100 12800 (Bank.bat 90) in
  getBatterySoC b' = (if SoC (Bank.bat 90) >? 25600 then 25600 else 12800)
  /\ charge b' = 12800 * 100 * 36
  /\ fillState b' = fillState (Bank.bat 90)
  /\ opState b' = opState (Bank.bat 90)
  /\ healthState b' = healthState (Bank.bat 90)
  /\ currentSteady b' = currentSteady (Bank.bat 90)
  /\ isolationTime b' = isolationTime (Bank.bat 90).
Proof. apply (setBatterySoC_read_back 100 12800 (Bank.bat 90)); lia. Defined.

(** [resetBatterySoC] sets the SoC to 25600, marks the fill state faulty
    exactly when the SoC was below 25600, and a second reset changes
    nothing. *)
Theorem resetBatterySoC_idempotent :
  forall capacity b,
    let b' := resetBatterySoC capacity b in
    SoC b' = 25600
    /\ fillState b' = (if SoC b <? 25600 then faultyF else fillState b)
    /\ resetBatterySoC capacity b' = b'.
Proof.
  intros capacity b b'.
  assert (SoC b' = 25600) as Hs.
  { subst b'. unfold resetBatterySoC, setBatterySoC.
    destruct (SoC b <? 25600); simpl;
      match goal with |- context [?x >? 25600] => destruct (x >? 25600) end;
      reflexivity. }
  split; [exact Hs|]. split.
  { subst b'. unfold resetBatterySoC, setBatterySoC.
    destruct (SoC b <? 25600); simpl;
      match goal with |- context [?x >? 25600] => destruct (x >? 25600) end;
      reflexivity. }
  unfold resetBatterySoC at 1. rewrite Hs. simpl.
  unfold setBatterySoC. rewrite Hs. simpl.
  subst b'. unfold resetBatterySoC, setBatterySoC.
  destruct b as [cs fs os hs lc lv soc ch it]. simpl.
  destruct (soc <? 25600); simpl; destruct (soc >? 25600); reflexivity.
Qed.

(** ** The ranking: a permutation, present batteries first, highest SoC first *)

Section SortByKey.

Variable key : Z -> Z.

(** One pass of the sort by descending key carries the lowest key of the
    positions up to [m] to position [m]. *)
Lemma bubblePass_lowest (l : list Z) (m : nat) :
  (m < length l)%nat ->
  let l' := bubblePass (fun a b => key a <? key b) l m in
  (forall j, (m < j)%nat -> l' !! j = l !! j)
  /\ (forall j x, (j <= m)%nat -> l' !! j = Some x ->
                  exists j0, (j0 <= m)%nat /\ l !! j0 = Some x)
  /\ (forall j x b, (j <= m)%nat -> l' !! j = Some x -> l' !! m = Some b ->
                    key b <= key x).
Proof.
  induction m as [|m IH]; intros Hm; cbv zeta.
  - change (bubblePass (fun a b => key a <? key b) l 0) with l.
    split; [reflexivity|]. split.
    + intros j x Hj Hx. exists j. auto.
    + intros j x b Hj Hx Hb. assert (j = 0)%nat as -> by lia.
      assert (x = b) as -> by congruence. lia.
  - rewrite bubblePass_S.
    destruct (IH ltac:(lia)) as (Hup & Hfrom & Hlow).
    set (l1 := bubblePass (fun a b => key a <? key b) l m) in *.
    assert (length l1 = length l) as Hlen by apply bubblePass_length.
    destruct (lookup_lt_is_Some_2 l1 m ltac:(lia)) as [a Ha].
    destruct (lookup_lt_is_Some_2 l1 (S m) ltac:(lia)) as [b Hb].
    unfold bubbleStep. rewrite Ha, Hb.
    destruct (Z.ltb_spec (key a) (key b)) as [Hlt|Hge].
    + split; [|split].
      * intros j Hj. rewrite !list_lookup_insert_ne by lia. apply Hup. lia.
      * intros j x Hj Hx.
        destruct (decide (j = S m)) as [->|N1].
        { rewrite list_lookup_insert_eq in Hx
            by (rewrite length_insert; lia).
          injection Hx as <-.
          destruct (Hfrom m a ltac:(lia) Ha) as (j0 & Hj0 & Hx0).
          exists j0. split; [lia|exact Hx0]. }
        rewrite list_lookup_insert_ne in Hx by lia.
        destruct (decide (j = m)) as [->|N2].
        { rewrite list_lookup_insert_eq in Hx by lia. injection Hx as <-.
          exists (S m). split; [lia|]. rewrite <- Hup by lia. exact Hb. }
        rewrite list_lookup_insert_ne in Hx by lia.
        destruct (Hfrom j x ltac:(lia) Hx) as (j0 & Hj0 & Hx0).
        exists j0. split; [lia|exact Hx0].
      * intros j x b' Hj Hx Hb'.
        rewrite list_lookup_insert_eq in Hb' by (rewrite length_insert; lia).
        injection Hb' as <-.
        destruct (decide (j = S m)) as [->|N1].
        { rewrite list_lookup_insert_eq in Hx
            by (rewrite length_insert; lia).
          injection Hx as <-. lia. }
        rewrite list_lookup_insert_ne in Hx by lia.
        destruct (decide (j = m)) as [->|N2].
        { rewrite list_lookup_insert_eq in Hx by lia. injection Hx as <-.
          lia. }
        rewrite list_lookup_insert_ne in Hx by lia.
        apply (Hlow j x a); auto. lia.
    + split; [|split].
      * intros j Hj. apply Hup. lia.
      * intros j x Hj Hx.
        destruct (decide (j = S m)) as [->|N1].
        { exists (S m). split; [lia|]. rewrite <- Hup by lia. exact Hx. }
        destruct (Hfrom j x ltac:(lia) Hx) as (j0 & Hj0 & Hx0).
        exists j0. split; [lia|exact Hx0].
      * intros j x b' Hj Hx Hb'.
        assert (b' = b) as -> by congruence.
        destruct (decide (j = S m)) as [->|N1].
        { assert (x = b) as -> by congruence. lia. }
        pose proof (Hlow j x a ltac:(lia) Hx Ha). lia.
Qed.

Lemma bubbleSort_descends (n s NUM_BATS : nat) (l : list Z) :
  (s + n = NUM_BATS - 1)%nat ->
  length l = NUM_BATS ->
  (forall j j' x y, (j <= j')%nat -> (NUM_BATS - s <= j')%nat ->
     l !! j = Some x -> l !! j' = Some y -> key y <= key x) ->
  let l' := foldl (fun l i => bubblePass (fun a b => key a <? key b) l
                                (NUM_BATS - i - 1)) l (seq s n) in
  forall j j' x y, (j <= j')%nat -> (NUM_BATS - s - n <= j')%nat ->
    l' !! j = Some x -> l' !! j' = Some y -> key y <= key x.
Proof.
  revert s l. induction n as [|n IH]; intros s l Hs Hlen Hd; simpl.
  - intros j j' x y Hj Hj'. apply Hd; lia.
  - destruct (bubblePass_lowest l (NUM_BATS - s - 1) ltac:(lia))
      as (Hup & Hfrom & Hlow).
    set (l1 := bubblePass (fun a b => key a <? key b) l
                 (NUM_BATS - s - 1)) in *.
    assert (length l1 = NUM_BATS) as Hlen1.
    { subst l1. rewrite bubblePass_length. exact Hlen. }
    assert (forall j j' x y, (j <= j')%nat -> (NUM_BATS - S s <= j')%nat ->
              l1 !! j = Some x -> l1 !! j' = Some y -> key y <= key x)
      as Hd1.
    { intros j j' x y Hj Hj' Hx Hy.
      destruct (decide (j' = NUM_BATS - s - 1)%nat) as [->|Hne].
      - apply (Hlow j x y); auto.
      - rewrite Hup in Hy by lia.
        destruct (decide (NUM_BATS - s - 1 < j)%nat) as [Hgt|Hle].
        + rewrite Hup in Hx by lia. apply (Hd j j'); auto; lia.
        + destruct (Hfrom j x ltac:(lia) Hx) as (j0 & Hj0 & Hx0).
          apply (Hd j0 j'); auto; lia. }
    intros j j' x y Hj Hj'.
    apply (IH (S s) l1 ltac:(lia) Hlen1 Hd1); auto. lia.
Qed.

Lemma descending_strongly_sorted (l : list Z) :
  (forall j j' x y, (j <= j')%nat ->
     l !! j = Some x -> l !! j' = Some y -> key y <= key x) ->
  StronglySorted (fun x y => key y <= key x) l.
Proof.
  induction l as [|a l IH]; intros H; constructor.
  - apply IH. intros j j' x y Hj Hx Hy.
    apply (H (S j) (S j')); auto. lia.
  - apply Forall_lookup. intros i y Hy.
    apply (H 0%nat (S i)); auto. lia.
Qed.

Lemma bubbleSort_sorted NUM_BATS (l : list Z) :
  length l = NUM_BATS ->
  StronglySorted (fun x y => key y <= key x)
    (bubbleSort NUM_BATS (fun a b => key a <? key b) l).
Proof.
  intros Hlen. apply descending_strongly_sorted.
  intros j j' x y Hj.
  destruct (decide (j' = 0)%nat) as [->|Hne].
  { assert (j = 0)%nat as -> by lia. intros Hx Hy.
    assert (x = y) as -> by congruence. lia. }
  apply (bubbleSort_descends (NUM_BATS - 1) 0 NUM_BATS l); auto; try lia.
  intros i i' a b Hi Hi' Ha Hb. apply lookup_lt_Some in Hb. lia.
Qed.

End SortByKey.

Section StablePartition.

Variable p : Z -> bool.

Lemma swap_keeps_others (k : nat) (l : list Z) a b :
  l !! k = Some a -> l !! S k = Some b -> p a = true ->
  filter (fun x => p x = false) (<[S k := a]> (<[k := b]> l))
  = filter (fun x => p x = false) l.
Proof.
  revert l. induction k as [|k IH]; intros l Ha Hb Hp.
  - destruct l as [|x [|y l]]; try discriminate.
    simpl in Ha, Hb. injection Ha as ->. injection Hb as ->. simpl.
    rewrite !filter_cons.
    destruct (decide (p a = false)) as [E|_]; [congruence|].
    reflexivity.
  - destruct l as [|x l]; [discriminate|].
    simpl in *. rewrite !filter_cons. rewrite IH by assumption. reflexivity.
Qed.

Lemma bubbleSort_keeps_others NUM_BATS (l : list Z) :
  filter (fun x => p x = false) (bubbleSort NUM_BATS (fun a _ => p a) l)
  = filter (fun x => p x = false) l.
Proof.
  assert (forall l k, filter (fun x => p x = false)
                        (bubbleStep (fun a _ => p a) l k)
                      = filter (fun x => p x = false) l) as Hstep.
  { intros l0 k. unfold bubbleStep.
    destruct (l0 !! k) as [a|] eqn:Ea; [|reflexivity].
    destruct (l0 !! S k) as [b|] eqn:Eb; [|reflexivity].
    destruct (p a) eqn:Ep; [|reflexivity].
    apply swap_keeps_others; assumption. }
  assert (forall m l, filter (fun x => p x = false)
                        (bubblePass (fun a _ => p a) l m)
                      = filter (fun x => p x = false) l) as Hpass.
  { intros m. induction m as [|m IH]; intros l0; [reflexivity|].
    rewrite bubblePass_S, Hstep. apply IH. }
  unfold bubbleSort. generalize (seq 0 (NUM_BATS - 1)). intros ps. revert l.
  induction ps as [|i ps IH]; intros l; simpl; [reflexivity|].
  rewrite IH. apply Hpass.
Qed.

(** In a partitioned list an element at or above the number of elements
    that do not satisfy [p] satisfies [p]. *)
Lemma partitioned_back (l : list Z) (j : nat) a :
  (forall j j' a b, (j <= j')%nat -> l !! j = Some a -> l !! j' = Some b ->
                    p a = true -> p b = true) ->
  (length l <= j + length (filter (fun a => p a = true) l))%nat ->
  l !! j = Some a -> p a = true.
Proof.
  intros Hclosed Hj Ha.
  destruct (p a) eqn:Epa; [reflexivity|exfalso].
  assert (Forall (fun a => ~ p a = true) (take (S j) l)) as Hall.
  { apply Forall_lookup. intros i x Hx.
    apply lookup_take_Some in Hx. destruct Hx as [Hx Hi].
    intros Hpx. pose proof (Hclosed i j x a ltac:(lia) Hx Ha Hpx).
    congruence. }
  assert (filter (fun a => p a = true) (take (S j) l) = []) as Hf.
  { clear -Hall. induction Hall as [|x k Hx Hk IH]; [reflexivity|].
    rewrite filter_cons_False by exact Hx. exact IH. }
  rewrite <- (take_drop (S j) l) in Hj at 2.
  rewrite filter_app, Hf in Hj. simpl in Hj.
  pose proof (length_filter (fun a => p a = true) (drop (S j) l)) as Hle.
  rewrite length_drop in Hle.
  apply lookup_lt_Some in Ha. lia.
Qed.

Lemma filter_front (l : list Z) (n : nat) :
  Forall (fun a => p a = false) (take n l) ->
  Forall (fun a => p a = true) (drop n l) ->
  filter (fun a => p a = false) l = take n l.
Proof.
  intros H1 H2. rewrite <- (take_drop n l) at 1. rewrite filter_app.
  assert (filter (fun a => p a = false) (take n l) = take n l) as ->.
  { clear -H1. induction H1 as [|x k Hx Hk IH]; [reflexivity|].
    rewrite filter_cons_True by exact Hx. rewrite IH. reflexivity. }
  assert (filter (fun a => p a = false) (drop n l) = []) as ->.
  { clear -H2. induction H2 as [|x k Hx Hk IH]; [reflexivity|].
    rewrite filter_cons_False by congruence. exact IH. }
  apply app_nil_r.
Qed.

End StablePartition.

Lemma StronglySorted_filter (R : Z -> Z -> Prop) (P : Z -> Prop)
  `{forall x, base.Decision (P x)} (l : list Z) :
  StronglySorted R l -> StronglySorted R (filter P l).
Proof.
  induction 1 as [|x l Hl IH Hx]; [constructor|].
  rewrite filter_cons. destruct (decide (P x)); [|exact IH].
  constructor; [exact IH|].
  apply Forall_forall. intros y Hy. apply list_elem_of_filter in Hy.
  rewrite Forall_forall in Hx. apply Hx. tauto.
Qed.

Section RankingFacts.

Variable NUM_BATS : nat.
Variable env : Readings.
Variable bats : list batteryStates.
Hypothesis few : (NUM_BATS <= 255)%nat.

Lemma rankBatteries_closed :
  forall j j' a b, (j <= j')%nat ->
    rankBatteries NUM_BATS env bats !! j = Some a ->
    rankBatteries NUM_BATS env bats !! j' = Some b ->
    isMissing (batteryAt env bats (a - 1)) = true ->
    isMissing (batteryAt env bats (b - 1)) = true.
Proof.
  unfold rankBatteries. cbv zeta.
  apply (bubbleSort_partitions
           (fun a => isMissing (batteryAt env bats (a - 1)))).
  rewrite (Permutation_length (bubbleSort_perm _ _ _)).
  rewrite length_map, length_seq. reflexivity.
Qed.

Lemma rankBatteries_missing_count :
  Z.of_nat (length (filter (fun a => isMissing (batteryAt env bats (a - 1))
                                     = true)
                      (rankBatteries NUM_BATS env bats)))
  = Z.of_nat NUM_BATS - countPresent NUM_BATS env bats.
Proof.
  rewrite countPresent_eq by exact few.
  rewrite <- missing_numbers.
  assert (length (filter (fun a => isMissing (batteryAt env bats (a - 1))
                                   = true)
                    (rankBatteries NUM_BATS env bats))
          = length (filter (fun a => isMissing (batteryAt env bats (a - 1))
                                     = true)
                      (map (fun i => Z.of_nat i + 1) (seq 0 NUM_BATS))))
    as ->.
  { apply Permutation_length. rewrite rankBatteries_perm. reflexivity. }
  lia.
Qed.

Lemma rankBatteries_back (j : nat) k :
  countPresent NUM_BATS env bats <= Z.of_nat j ->
  rankBatteries NUM_BATS env bats !! j = Some k ->
  isMissing (batteryAt env bats (k - 1)) = true.
Proof.
  intros Hj Hk.
  apply (partitioned_back
           (fun a => isMissing (batteryAt env bats (a - 1)))
           (rankBatteries NUM_BATS env bats) j k);
    [exact rankBatteries_closed| |exact Hk].
  pose proof rankBatteries_missing_count as Hc.
  rewrite rankBatteries_length. lia.
Qed.

(** The ranking is a permutation of the battery numbers 1..NUM_BATS in which
    exactly the first [numBats] positions hold batteries that are not
    missing. *)
Theorem ranking_partition :
  rankBatteries NUM_BATS env bats
  ≡ₚ map (fun i => Z.of_nat i + 1) (seq 0 NUM_BATS)
  /\ forall (j : nat) k,
       rankBatteries NUM_BATS env bats !! j = Some k ->
       (isMissing (batteryAt env bats (k - 1)) = false
        <-> Z.of_nat j < countPresent NUM_BATS env bats).
Proof.
  split; [apply rankBatteries_perm|].
  intros j k Hk. split.
  - intros Hp.
    destruct (Z.lt_ge_cases (Z.of_nat j) (countPresent NUM_BATS env bats))
      as [Hlt|Hge]; [exact Hlt|].
    pose proof (rankBatteries_back j k Hge Hk). congruence.
  - intros Hj. apply (rankBatteries_front NUM_BATS env bats j k few Hj Hk).
Qed.

(** The first [numBats] positions of the ranking are in descending order of
    SoC. *)
Theorem ranking_descends :
  StronglySorted
    (fun k k' => SoC (batteryAt env bats (k' - 1))
                 <= SoC (batteryAt env bats (k - 1)))
    (take (Z.to_nat (countPresent NUM_BATS env bats))
       (rankBatteries NUM_BATS env bats)).
Proof.
  set (n := Z.to_nat (countPresent NUM_BATS env bats)).
  pose proof (countPresent_range NUM_BATS env bats few) as Hr.
  assert (filter (fun a => isMissing (batteryAt env bats (a - 1)) = false)
            (rankBatteries NUM_BATS env bats)
          = take n (rankBatteries NUM_BATS env bats)) as <-.
  { apply filter_front.
    - apply Forall_lookup. intros j k Hk.
      apply lookup_take_Some in Hk. destruct Hk as [Hk Hj].
      apply (rankBatteries_front NUM_BATS env bats j k few); [lia|exact Hk].
    - apply Forall_lookup. intros j k Hk. rewrite lookup_drop in Hk.
      apply (rankBatteries_back (n + j) k); [lia|exact Hk]. }
  unfold rankBatteries. cbv zeta.
  rewrite bubbleSort_keeps_others.
  apply StronglySorted_filter.
  apply (bubbleSort_sorted (fun a => SoC (batteryAt env bats (a - 1)))).
  rewrite length_map, length_seq. reflexivity.
Qed.

End RankingFacts.

Lemma ranking_partition_witness :
  let bats := [Bank.bat 70; Bank.absent; Bank.bat 90] in
  let env := Bank.readings 3300 3300 3300 3584 (Bank.beside 0) in
  rankBatteries 3 env bats ≡ₚ map (fun i => Z.of_nat i + 1) (seq 0 3)
  /\ (rankBatteries 3 env bats !! 0%nat = Some 3 ->
      (isMissing (batteryAt env bats (3 - 1)) = false
       <-> Z.of_nat 0 < countPresent 3 env bats)).
Proof.
  cbv zeta.
  pose proof (ranking_partition 3
                (Bank.readings 3300 3300 3300 3584 (Bank.beside 0))
                [Bank.bat 70; Bank.absent; Bank.bat 90] ltac:(lia)) as [H1 H2].
  split; [exact H1|]. exact (H2 0%nat 3).
Defined.

Lemma ranking_descends_witness :
  StronglySorted
    (fun k k' =>
       SoC (batteryAt (Bank.readings 3300 3300 3300 3584 (Bank.beside 0))
              [Bank.bat 70; Bank.absent; Bank.bat 90] (k' - 1))
       <= SoC (batteryAt (Bank.readings 3300 3300 3300 3584 (Bank.beside 0))
                 [Bank.bat 70; Bank.absent; Bank.bat 90] (k - 1)))
    (take (Z.to_nat (countPresent 3
                       (Bank.readings 3300 3300 3300 3584 (Bank.beside 0))
                       [Bank.bat 70; Bank.absent; Bank.bat 90]))
       (rankBatteries 3 (Bank.readings 3300 3300 3300 3584 (Bank.beside 0))
          [Bank.bat 70; Bank.absent; Bank.bat 90])).
Proof.
  apply (ranking_descends 3
           (Bank.readings 3300 3300 3300 3584 (Bank.beside 0))
           [Bank.bat 70; Bank.absent; Bank.bat 90]).
  lia.
Defined.

(** ** The battery with the longest isolation time *)

Section LongestIsolated.

Variable env : Readings.
Variable bats : list batteryStates.

Lemma longest_search (n : nat) :
  longestAfter env bats n
    (foldl (fun '(longestBattery, longestTime) i =>
              let b := batteryAt env bats (Z.of_nat i) in
              if negb (isMissing b) && (isolationTime b >? longestTime)
              then (Z.of_nat i + 1, isolationTime b)
              else (longestBattery, longestTime))
           (0, 0) (seq 0 n)).
Proof.
  induction n as [|n IH].
  - left. cbn. repeat split; intros; lia.
  - rewrite seq_S, foldl_app. cbn [foldl Nat.add].
    destruct (foldl _ (0, 0) (seq 0 n)) as [lb lt] eqn:E.
    cbn [fst snd] in IH.
    destruct (isMissing (batteryAt env bats (Z.of_nat n))) eqn:Em;
      cbn [negb andb].
    + (* slot n is missing: nothing changes *)
      destruct IH as [(H1 & H2 & H3)|(i & Hi & H1 & H2 & H3 & H4 & H5)].
      * left. cbn [fst snd]. repeat split; try assumption.
        intros j Hj Hp.
        destruct (decide (j = n)) as [->|Hne]; [congruence|].
        apply H3; [lia|exact Hp].
      * right. exists i. cbn [fst snd] in *.
        repeat split; try assumption; try lia.
        -- destruct (decide (j = n)) as [->|Hne]; [congruence|].
           apply H5; [lia|assumption].
        -- destruct (decide (j = n)) as [->|Hne]; [congruence|].
           apply H5; [lia|assumption].
    + destruct (isolationTime (batteryAt env bats (Z.of_nat n)) >? lt) eqn:Et.
      * (* slot n is the new longest *)
        apply Z.gtb_lt in Et.
        right. exists n. cbn [fst snd].
        destruct IH as [(H1 & H2 & H3)|(i & Hi & H1 & H2 & H3 & H4 & H5)].
        -- cbn [fst snd] in *. subst lt.
           repeat split; try lia; try assumption.
           ++ destruct (decide (j = n)) as [->|Hne]; [lia|].
              assert (isolationTime (batteryAt env bats (Z.of_nat j)) <= 0)
                by (apply H3; [lia|assumption]).
              lia.
           ++ intros Hlt.
              assert (isolationTime (batteryAt env bats (Z.of_nat j)) <= 0)
                by (apply H3; [lia|assumption]).
              lia.
        -- cbn [fst snd] in *.
           repeat split; try lia; try assumption.
           ++ destruct (decide (j = n)) as [->|Hne]; [lia|].
              assert (isolationTime (batteryAt env bats (Z.of_nat j)) <= lt)
                by (apply H5; [lia|assumption]).
              lia.
           ++ intros Hlt.
              assert (isolationTime (batteryAt env bats (Z.of_nat j)) <= lt)
                by (apply H5; [lia|assumption]).
              lia.
      * (* slot n is not longer than the longest so far *)
        rewrite Z.gtb_ltb in Et. apply Z.ltb_ge in Et.
        destruct IH as [(H1 & H2 & H3)|(i & Hi & H1 & H2 & H3 & H4 & H5)].
        -- left. cbn [fst snd] in *. subst lt.
           repeat split; try assumption.
           intros j Hj Hp.
           destruct (decide (j = n)) as [->|Hne]; [lia|].
           apply H3; [lia|exact Hp].
        -- right. exists i. cbn [fst snd] in *.
           repeat split; try assumption; try lia.
           ++ destruct (decide (j = n)) as [->|Hne]; [lia|].
              apply H5; [lia|assumption].
           ++ destruct (decide (j = n)) as [->|Hne]; [lia|].
              apply H5; [lia|assumption].
Qed.

(** The search for the battery with the longest isolation time looks at the
    array slots [0 .. numBats-1]: it returns 0 when none of the batteries
    present there has a positive isolation time, and otherwise the number of
    the first such battery whose isolation time is the largest. *)
Theorem longestIsolated_first_maximum (numBats : Z) :
  let k := longestIsolated env bats numBats in
  (k = 0
   /\ forall j : nat, Z.of_nat j < numBats ->
        isMissing (batteryAt env bats (Z.of_nat j)) = false ->
        isolationTime (batteryAt env bats (Z.of_nat j)) <= 0)
  \/ (exists i : nat,
        Z.of_nat i < numBats /\ k = Z.of_nat i + 1
        /\ isMissing (batteryAt env bats (Z.of_nat i)) = false
        /\ 0 < isolationTime (batteryAt env bats (Z.of_nat i))
        /\ forall j : nat, Z.of_nat j < numBats ->
             isMissing (batteryAt env bats (Z.of_nat j)) = false ->
             isolationTime (batteryAt env bats (Z.of_nat j))
             <= isolationTime (batteryAt env bats (Z.of_nat i))
             /\ ((j < i)%nat ->
                 isolationTime (batteryAt env bats (Z.of_nat j))
                 < isolationTime (batteryAt env bats (Z.of_nat i)))).
Proof.
  cbv zeta. unfold longestIsolated.
  pose proof (longest_search (Z.to_nat numBats)) as H.
  destruct (foldl _ (0, 0) (seq 0 (Z.to_nat numBats))) as [lb lt].
  destruct H as [(H1 & H2 & H3)|(i & Hi & H1 & H2 & H3 & H4 & H5)];
    cbn [fst snd] in *.
  - left. split; [exact H1|]. intros j Hj Hp. apply H3; [lia|exact Hp].
  - right. exists i. rewrite <- H2.
    repeat split; try assumption; try lia.
    + apply H5; [lia|assumption].
    + apply H5; [lia|assumption].
Qed.

End LongestIsolated.
